(** * GoodBite: the per-user order store (src/services/OrderService.ts)

    A shallow embedding of the [OrderService] singleton.  JavaScript objects
    are shared by reference, so [Order] instances and arrays live in explicit
    heaps and the service's methods are computations in a small
    state-and-exception monad over a [World] that also holds the browser's
    [localStorage] and the console. *)

From Stdlib Require Import Floats.
From stdpp Require Import gmap strings list.

Local Open Scope string_scope.
Local Open Scope list_scope.

(** ** The Order entity *)

(** The union type ["pending" | "picked" | "expired"] of [order.status]. *)
Inductive Status := pending | picked | expired.

#[global] Instance Status_eq_dec : EqDecision Status.
Proof. solve_decision. Defined.

(** Modelled from the spec: the input payload [OrderData] of models/Order,
    which is not part of the sources.  The spec gives it an id and a price
    that are taken as given, and otherwise opaque fields, kept here as one
    opaque [data_payload]. *)
Record OrderData := mkOrderData {
  data_id : string;
  data_price : float;
  data_payload : string
}.

(** Modelled from the spec: the [Order] class of models/Order, which is not
    part of the sources: an id, a status among pending, picked and expired,
    a numeric price and an opaque payload carried through unchanged. *)
Record Order := mkOrder {
  id : string;
  status : Status;
  price : float;
  payload : string
}.

(** Modelled from the spec: the plain structured representation [OrderJSON]
    of models/Order, the snapshot shape with id, status, price and payload
    fields. *)
Record OrderJSON := mkOrderJSON {
  json_id : string;
  json_status : Status;
  json_price : float;
  json_payload : string
}.

(** Modelled from the spec: the constructor of [Order] (models/Order is not
    part of the sources): "builds a new Order from caller-supplied fields,
    assigns status pending", "price/id are taken as given". *)
Definition new_Order (data : OrderData) : Order :=
  {| id := data_id data; status := pending;
     price := data_price data; payload := data_payload data |}.

(** Modelled from the spec: [Order.isPending] and [Order.isPicked] of
    models/Order, "pure predicates on current status". *)
Definition isPending (o : Order) : bool := bool_decide (status o = pending).
Definition isPicked (o : Order) : bool := bool_decide (status o = picked).

Definition with_status (s : Status) (o : Order) : Order :=
  {| id := id o; status := s; price := price o; payload := payload o |}.

(** Modelled from the spec: [Order.markAsPicked] and [Order.markAsExpired] of
    models/Order: "sets status to picked only if current status is pending;
    otherwise no-op", and symmetrically for expired. *)
Definition markAsPicked (o : Order) : Order :=
  if isPending o then with_status picked o else o.
Definition markAsExpired (o : Order) : Order :=
  if isPending o then with_status expired o else o.

(** Modelled from the spec: [Order.toJSON] and [Order.fromJSON] of
    models/Order (the spec's serialize and deserialize), the "round-trip to a
    plain structured representation" with fields id, status, price and
    payload. *)
Definition toJSON (o : Order) : OrderJSON :=
  {| json_id := id o; json_status := status o;
     json_price := price o; json_payload := payload o |}.
Definition fromJSON (json : OrderJSON) : Order :=
  {| id := json_id json; status := json_status json;
     price := json_price json; payload := json_payload json |}.

(** ** The platform: exceptions, JSON text, localStorage, console, heaps *)

Inductive JSError := SyntaxError | TypeError | QuotaExceededError | SecurityError.

(** What a slot of [localStorage] can hold, up to what [JSON.parse] makes of
    it: the empty string; a non-empty text that is not JSON; the text
    [JSON.stringify] writes for an array of order snapshots; or the text of a
    JSON value that is not an array, such as the user record, of which only
    the [phone] property is ever read and which has no [map] method.  The
    codec is taken to be exact: parsing what [JSON.stringify] wrote gives the
    snapshots back. *)
Inductive StoredText :=
| TextEmpty
| TextMalformed
| TextOrders (l : list OrderJSON)
| TextObject (phone : option string).

Inductive JSValue :=
| JSArray (l : list OrderJSON)
| JSObject (phone : option string).

Inductive Outcome (A : Type) :=
| Normal (a : A)
| Throw (e : JSError).
Arguments Normal {A} a.
Arguments Throw {A} e.

Definition JSON_parse (t : StoredText) : Outcome JSValue :=
  match t with
  | TextEmpty | TextMalformed => Throw SyntaxError
  | TextOrders l => Normal (JSArray l)
  | TextObject p => Normal (JSObject p)
  end.

Definition JSON_stringify (l : list OrderJSON) : StoredText := TextOrders l.

(** A string or null used as a condition: [if (stored)], [if (userData)]. *)
Definition truthy_text (t : option StoredText) : bool :=
  match t with
  | None | Some TextEmpty => false
  | Some _ => true
  end.

(** The methods wrap their storage accesses in [try]/[catch], so the model
    lets them fail: [localStorage] either works, refuses writes (quota
    exceeded) or refuses every access (storage disabled). *)
Inductive StorageMode := Available | QuotaExceeded | AccessDenied.

Record LocalStorage := mkLocalStorage {
  items : gmap string StoredText;
  mode : StorageMode
}.

(** References are indices into the heaps.  [orders] and [currentUserPhone]
    are the two mutable fields of the singleton [OrderService] instance;
    [orders] is a reference to an array of references to [Order] objects. *)
Record World := mkWorld {
  objects : list Order;
  arrays : list (list nat);
  localStorage : LocalStorage;
  console : list (string * option JSError);
  orders : nat;
  currentUserPhone : string
}.

Definition set_objects (h : list Order) (w : World) : World :=
  mkWorld h (arrays w) (localStorage w) (console w) (orders w) (currentUserPhone w).
Definition set_arrays (a : list (list nat)) (w : World) : World :=
  mkWorld (objects w) a (localStorage w) (console w) (orders w) (currentUserPhone w).
Definition set_localStorage (s : LocalStorage) (w : World) : World :=
  mkWorld (objects w) (arrays w) s (console w) (orders w) (currentUserPhone w).
Definition set_console (c : list (string * option JSError)) (w : World) : World :=
  mkWorld (objects w) (arrays w) (localStorage w) c (orders w) (currentUserPhone w).
Definition set_orders (r : nat) (w : World) : World :=
  mkWorld (objects w) (arrays w) (localStorage w) (console w) r (currentUserPhone w).
Definition set_currentUserPhone (u : string) (w : World) : World :=
  mkWorld (objects w) (arrays w) (localStorage w) (console w) (orders w) u.

(** ** The monad of method bodies *)

Definition M (A : Type) : Type := World -> Outcome A * World.

Definition ret {A} (a : A) : M A := fun w => (Normal a, w).

Definition bind {A B} (m : M A) (k : A -> M B) : M B :=
  fun w =>
    match m w with
    | (Normal a, w') => k a w'
    | (Throw e, w') => (Throw e, w')
    end.

Definition throw {A} (e : JSError) : M A := fun w => (Throw e, w).

(** [try { m } catch (error) { handler error }] *)
Definition try_catch {A} (m : M A) (handler : JSError -> M A) : M A :=
  fun w =>
    match m w with
    | (Normal a, w') => (Normal a, w')
    | (Throw e, w') => handler e w'
    end.

Definition gets {A} (f : World -> A) : M A := fun w => (Normal (f w), w).
Definition modify (f : World -> World) : M unit := fun w => (Normal tt, f w).
Definition lift {A} (o : Outcome A) : M A := fun w => (o, w).

Notation "'let*' x := m 'in' k" := (bind m (fun x => k))
  (at level 10, x name, m at level 100, k at level 200).
Notation "m ;; k" := (bind m (fun _ => k))
  (at level 100, k at level 200, right associativity).

Definition console_error (msg : string) (error : option JSError) : M unit :=
  modify (fun w => set_console (console w ++ [(msg, error)]) w).

Definition localStorage_getItem (key : string) : M (option StoredText) :=
  fun w =>
    match mode (localStorage w) with
    | AccessDenied => (Throw SecurityError, w)
    | _ => (Normal (items (localStorage w) !! key), w)
    end.

Definition localStorage_setItem (key : string) (value : StoredText) : M unit :=
  fun w =>
    match mode (localStorage w) with
    | AccessDenied => (Throw SecurityError, w)
    | QuotaExceeded => (Throw QuotaExceededError, w)
    | Available =>
        (Normal tt,
         set_localStorage
           (mkLocalStorage (<[key := value]> (items (localStorage w))) Available) w)
    end.

Definition localStorage_removeItem (key : string) : M unit :=
  fun w =>
    match mode (localStorage w) with
    | AccessDenied => (Throw SecurityError, w)
    | md =>
        (Normal tt,
         set_localStorage (mkLocalStorage (delete key (items (localStorage w))) md) w)
    end.

(** [new Order(...)] and array literals allocate at the end of their heap. *)
Definition alloc_object (o : Order) : M nat :=
  fun w => (Normal (length (objects w)), set_objects (objects w ++ [o]) w).
Definition alloc_array (l : list nat) : M nat :=
  fun w => (Normal (length (arrays w)), set_arrays (arrays w ++ [l]) w).

Definition deref (w : World) (l : nat) : option Order := objects w !! l.
Definition read_array (w : World) (r : nat) : list nat := default [] (arrays w !! r).
Definition write_array (r : nat) (l : list nat) (w : World) : World :=
  set_arrays (<[r := l]> (arrays w)) w.
Definition update_object (l : nat) (f : Order -> Order) (w : World) : World :=
  match deref w l with
  | Some o => set_objects (<[l := f o]> (objects w)) w
  | None => w
  end.

(** The references held by [this.orders], and the objects they denote. *)
Definition contents (w : World) : list nat := read_array w (orders w).
Definition snapshot (w : World) : list Order := omap (deref w) (contents w).

(** [callback(order)] for a boolean callback reading the object at [l]. *)
Definition test_object (w : World) (f : Order -> bool) (l : nat) : bool :=
  match deref w l with
  | Some o => f o
  | None => false
  end.

(** [Array.prototype.map] with an effectful callback. *)
Fixpoint Array_map {A B} (f : A -> M B) (l : list A) : M (list B) :=
  match l with
  | [] => ret []
  | x :: l' => let* y := f x in let* ys := Array_map f l' in ret (y :: ys)
  end.

(** [Array.prototype.findIndex], with [None] for -1. *)
Fixpoint findIndex {A} (f : A -> bool) (l : list A) : option nat :=
  match l with
  | [] => None
  | x :: l' => if f x then Some 0 else S <$> findIndex f l'
  end.

(** ** The OrderService class *)

Definition STORAGE_KEY_PREFIX : string := "goodbite_orders_".

(** A string used as a condition: only the empty string is falsy. *)
Definition truthy_string (s : string) : bool := negb (bool_decide (s = "")).

(** [user.phone || ""]: arrays have no [phone] property. *)
Definition phone_or_empty (user : JSValue) : string :=
  match user with
  | JSObject (Some p) => p
  | JSObject None | JSArray _ => ""
  end.

(** [this.orders = l] for a freshly built array [l]. *)
Definition assign_orders (l : list nat) : M unit :=
  let* r := alloc_array l in modify (set_orders r).

Definition Array_push (r : nat) (x : nat) : M unit :=
  modify (fun w => write_array r (read_array w r ++ [x]) w).

(** [array.splice(index, 1)] *)
Definition Array_splice1 (r : nat) (index : nat) : M unit :=
  modify (fun w => write_array r (delete index (read_array w r)) w).

Definition setCurrentUser : M unit :=
  try_catch
    (let* userData := localStorage_getItem "goodbite_user" in
     match userData with
     | Some t =>
         if truthy_text userData then
           let* user := lift (JSON_parse t) in
           modify (set_currentUserPhone (phone_or_empty user))
         else ret tt
     | None => ret tt
     end)
    (fun error =>
       console_error "Error loading user data:" (Some error) ;;
       modify (set_currentUserPhone "")).

Definition getStorageKey : M string :=
  gets (fun w => STORAGE_KEY_PREFIX +:+ currentUserPhone w).

Definition loadOrders : M unit :=
  try_catch
    (let* phone := gets currentUserPhone in
     if negb (truthy_string phone) then assign_orders []
     else
       let* key := getStorageKey in
       let* stored := localStorage_getItem key in
       match stored with
       | Some t =>
           if truthy_text stored then
             let* ordersJSON := lift (JSON_parse t) in
             match ordersJSON with
             | JSArray l =>
                 let* refs := Array_map (fun json => alloc_object (fromJSON json)) l in
                 assign_orders refs
             | JSObject _ => throw TypeError
             end
           else assign_orders []
       | None => assign_orders []
       end)
    (fun error =>
       console_error "Error loading orders:" (Some error) ;;
       assign_orders []).

Definition saveOrders : M unit :=
  try_catch
    (let* phone := gets currentUserPhone in
     if negb (truthy_string phone) then
       console_error "No user logged in, cannot save orders" None
     else
       let* ordersJSON := gets (fun w => map toJSON (snapshot w)) in
       let* key := getStorageKey in
       localStorage_setItem key (JSON_stringify ordersJSON))
    (fun error => console_error "Error saving orders:" (Some error)).

Definition switchUser (userPhone : string) : M unit :=
  modify (set_currentUserPhone userPhone) ;;
  loadOrders.

Definition clearUserSession : M unit :=
  modify (set_currentUserPhone "") ;;
  assign_orders [].

Definition createOrder (orderData : OrderData) : M nat :=
  let* newOrder := alloc_object (new_Order orderData) in
  let* this_orders := gets orders in
  Array_push this_orders newOrder ;;
  saveOrders ;;
  ret newOrder.

Definition has_id (orderId : string) (order : Order) : bool :=
  bool_decide (id order = orderId).
Definition has_status (s : Status) (order : Order) : bool :=
  bool_decide (status order = s).

Definition getOrderById (orderId : string) : M (option nat) :=
  gets (fun w => List.find (test_object w (has_id orderId)) (contents w)).

Definition getAllOrders : M nat :=
  let* copy := gets contents in
  alloc_array copy.

Definition refreshOrders : M unit := loadOrders.

Definition getOrdersByStatus (s : Status) : M nat :=
  let* l := gets (fun w => List.filter (test_object w (has_status s)) (contents w)) in
  alloc_array l.

Definition getPendingOrders : M nat :=
  let* l := gets (fun w => List.filter (test_object w isPending) (contents w)) in
  alloc_array l.

Definition getPickedOrders : M nat :=
  let* l := gets (fun w => List.filter (test_object w isPicked) (contents w)) in
  alloc_array l.

Definition markOrderAsPicked (orderId : string) : M bool :=
  let* order := getOrderById orderId in
  match order with
  | Some l =>
      let* pend := gets (fun w => test_object w isPending l) in
      if pend then
        modify (update_object l markAsPicked) ;;
        saveOrders ;;
        ret true
      else ret false
  | None => ret false
  end.

Definition markOrderAsExpired (orderId : string) : M bool :=
  let* order := getOrderById orderId in
  match order with
  | Some l =>
      let* pend := gets (fun w => test_object w isPending l) in
      if pend then
        modify (update_object l markAsExpired) ;;
        saveOrders ;;
        ret true
      else ret false
  | None => ret false
  end.

Definition deleteOrder (orderId : string) : M bool :=
  let* index := gets (fun w => findIndex (test_object w (has_id orderId)) (contents w)) in
  match index with
  | Some i =>
      let* this_orders := gets orders in
      Array_splice1 this_orders i ;;
      saveOrders ;;
      ret true
  | None => ret false
  end.

Definition getTotalOrdersCount : M nat :=
  gets (fun w => length (contents w)).

(** [total + order.price] for the object at [l]. *)
Definition add_price (w : World) (total : float) (l : nat) : float :=
  match deref w l with
  | Some order => (total + price order)%float
  | None => total
  end.

Definition getTotalRevenue : M float :=
  gets (fun w => fold_left (add_price w) (contents w) 0%float).

Definition orderExists (orderId : string) : M bool :=
  gets (fun w => existsb (test_object w (has_id orderId)) (contents w)).

Definition clearAllOrders : M unit :=
  assign_orders [] ;;
  let* phone := gets currentUserPhone in
  if truthy_string phone then
    let* key := getStorageKey in
    localStorage_removeItem key
  else ret tt.

(** The private constructor: field initialisers, then [setCurrentUser] and
    [loadOrders]. *)
Definition new_OrderService : M unit :=
  assign_orders [] ;;
  modify (set_currentUserPhone "") ;;
  setCurrentUser ;;
  loadOrders.

(** ** Programs against the store *)

(** What the rest of the application can do: call a public method of the
    singleton, or act on a value it was handed: write to an array it holds,
    or call a public method of an [Order] it holds. *)
Inductive Call :=
| call_switchUser (userPhone : string)
| call_clearUserSession
| call_createOrder (orderData : OrderData)
| call_getOrderById (orderId : string)
| call_getAllOrders
| call_refreshOrders
| call_getOrdersByStatus (s : Status)
| call_getPendingOrders
| call_getPickedOrders
| call_markOrderAsPicked (orderId : string)
| call_markOrderAsExpired (orderId : string)
| call_deleteOrder (orderId : string)
| call_getTotalOrdersCount
| call_getTotalRevenue
| call_orderExists (orderId : string)
| call_clearAllOrders
| caller_writes_array (r : nat) (l : list nat)
| caller_markAsPicked (l : nat)
| caller_markAsExpired (l : nat).

Inductive Value :=
| undefined
| boolean (b : bool)
| number (x : float)
| count (n : nat)
| reference (r : nat)
| maybe_reference (r : option nat).

Definition fmapM {A B} (f : A -> B) (m : M A) : M B :=
  let* a := m in ret (f a).

Definition invoke (c : Call) : M Value :=
  match c with
  | call_switchUser u => fmapM (fun _ => undefined) (switchUser u)
  | call_clearUserSession => fmapM (fun _ => undefined) clearUserSession
  | call_createOrder d => fmapM reference (createOrder d)
  | call_getOrderById i => fmapM maybe_reference (getOrderById i)
  | call_getAllOrders => fmapM reference getAllOrders
  | call_refreshOrders => fmapM (fun _ => undefined) refreshOrders
  | call_getOrdersByStatus s => fmapM reference (getOrdersByStatus s)
  | call_getPendingOrders => fmapM reference getPendingOrders
  | call_getPickedOrders => fmapM reference getPickedOrders
  | call_markOrderAsPicked i => fmapM boolean (markOrderAsPicked i)
  | call_markOrderAsExpired i => fmapM boolean (markOrderAsExpired i)
  | call_deleteOrder i => fmapM boolean (deleteOrder i)
  | call_getTotalOrdersCount => fmapM count getTotalOrdersCount
  | call_getTotalRevenue => fmapM number getTotalRevenue
  | call_orderExists i => fmapM boolean (orderExists i)
  | call_clearAllOrders => fmapM (fun _ => undefined) clearAllOrders
  | caller_writes_array r l => fmapM (fun _ => undefined) (modify (write_array r l))
  | caller_markAsPicked l => fmapM (fun _ => undefined) (modify (update_object l markAsPicked))
  | caller_markAsExpired l => fmapM (fun _ => undefined) (modify (update_object l markAsExpired))
  end.

Definition exec (c : Call) (w : World) : World := snd (invoke c w).

Definition run (cs : list Call) (w : World) : World :=
  fold_left (fun w c => exec c w) cs w.

(** A caller never holds [this.orders] itself: the field is private. *)
Definition permitted (w : World) (c : Call) : Prop :=
  match c with
  | caller_writes_array r _ => r ≠ orders w
  | _ => True
  end.

(** The page before [OrderService.getInstance()] is first called, and the
    world just after the singleton was constructed. *)
Definition page (storage : LocalStorage) : World :=
  mkWorld [] [] storage [] 0 "".

Definition boot (storage : LocalStorage) : World :=
  snd (new_OrderService (page storage)).

Inductive reachable : World -> Prop :=
| reachable_boot storage : reachable (boot storage)
| reachable_step w c : reachable w -> permitted w c -> reachable (exec c w).

(** The store's array exists, and it holds references to existing objects. *)
Definition wf (w : World) : Prop :=
  orders w < length (arrays w) ∧
  Forall (fun l => l < length (objects w)) (contents w).

(** ** Pure descriptions used in the statements *)

Definition storage_key (userPhone : string) : string :=
  STORAGE_KEY_PREFIX +:+ userPhone.

(** The objects an array of references denotes. *)
Definition array_values (w : World) (r : nat) : list Order :=
  omap (deref w) (read_array w r).

(** What a caller sees through a query that returns an array: the objects of
    the array it is handed. *)
Definition returned_orders (query : M nat) (w : World) : list Order :=
  match query w with
  | (Normal r, w') => array_values w' r
  | (Throw _, _) => []
  end.

Definition listAll (w : World) : list Order := returned_orders getAllOrders w.

Definition ids (w : World) : list string := map id (snapshot w).

(** The world after [this.orders = []]. *)
Definition emptied (w : World) : World :=
  set_orders (length (arrays w)) (set_arrays (arrays w ++ [[]]) w).

Definition logged (msg : string) (error : option JSError) (w : World) : World :=
  set_console (console w ++ [(msg, error)]) w.

(** The world after [this.orders = ordersJSON.map(json => Order.fromJSON(json))]. *)
Definition filled (l : list OrderJSON) (w : World) : World :=
  set_orders (length (arrays w))
    (set_arrays (arrays w ++ [seq (length (objects w)) (length l)])
       (set_objects (objects w ++ map fromJSON l) w)).

(** The world after [this.orders.push(newOrder)] in [createOrder]. *)
Definition pushed (d : OrderData) (w : World) : World :=
  write_array (orders w) (contents w ++ [length (objects w)])
    (set_objects (objects w ++ [new_Order d]) w).

(** The world after [this.orders.splice(index, 1)] in [deleteOrder]. *)
Definition spliced (index : nat) (w : World) : World :=
  write_array (orders w) (delete index (contents w)) w.

(** The orders a user's slot of [localStorage] holds, as [loadOrders] reads
    them. *)
Definition persisted_orders (userPhone : string) (s : LocalStorage) : list Order :=
  if bool_decide (userPhone = "") then []
  else match mode s with
       | AccessDenied => []
       | _ => match items s !! storage_key userPhone with
              | Some (TextOrders l) => map fromJSON l
              | _ => []
              end
       end.

(** [w'] has active user [u] and differs from [w] in no slot of
    [localStorage] but, at most, the one of [u]. *)
Definition storage_framed (u : string) (w w' : World) : Prop :=
  currentUserPhone w' = u ∧
  mode (localStorage w') = mode (localStorage w) ∧
  ∀ k, k ≠ storage_key u →
       items (localStorage w') !! k = items (localStorage w) !! k.

(** Calls that leave the active user as it is. *)
Definition keeps_binding (c : Call) : bool :=
  match c with
  | call_switchUser _ | call_clearUserSession => false
  | _ => true
  end.

(** Calls of the store's own methods. *)
Definition is_method (c : Call) : bool :=
  match c with
  | caller_writes_array _ _ | caller_markAsPicked _ | caller_markAsExpired _ => false
  | _ => true
  end.

(** The order [getOrderById(orderId)] returns: the first one of the
    collection with that id. *)
Definition first_with_id (orderId : string) (w : World) : option nat :=
  List.find (test_object w (has_id orderId)) (contents w).

(** What [markOrderAsPicked] and [markOrderAsExpired] do, for the store
    method [method], its target status [s] and the entity method
    [transition] it calls: the call returns normally with a boolean, which is
    [true] exactly when the first order with that id is pending (when ids are
    unique: exactly when an order with that id is pending).  On [true] that
    order, and no other object, has changed, its status is [s], and the
    persist step has run on the result; on [false] the world is unchanged. *)
Definition transition_contract (method : string -> M bool) (s : Status)
    (transition : Order -> Order) (orderId : string) (w : World) : Prop :=
  ∃ b w',
    method orderId w = (Normal b, w') ∧
    (b = true ↔
     ∃ l o, first_with_id orderId w = Some l ∧ deref w l = Some o ∧
            status o = pending) ∧
    (NoDup (ids w) →
     (b = true ↔
      ∃ o, o ∈ snapshot w ∧ id o = orderId ∧ status o = pending)) ∧
    (b = true →
     ∃ l o, first_with_id orderId w = Some l ∧ deref w l = Some o ∧
            deref w' l = Some (with_status s o) ∧
            (∀ l', l' ≠ l → deref w' l' = deref w l') ∧
            contents w' = contents w ∧
            w' = snd (saveOrders (update_object l transition w)) ∧
            (currentUserPhone w ≠ "" → mode (localStorage w) = Available →
             items (localStorage w') !! storage_key (currentUserPhone w)
             = Some (JSON_stringify (map toJSON (snapshot w'))))) ∧
    (b = false → w' = w).

(** How a call changes the store's collection: it is reloaded from the
    user's slot, emptied, extended at the end by the new order, thinned out
    with the remaining orders in their order, or it keeps its orders (and
    their ids) in place. *)
Definition collection_effect (c : Call) (w w' : World) : Prop :=
  match c with
  | call_switchUser u => snapshot w' = persisted_orders u (localStorage w)
  | call_refreshOrders =>
      snapshot w' = persisted_orders (currentUserPhone w) (localStorage w)
  | call_clearUserSession | call_clearAllOrders => snapshot w' = []
  | call_createOrder d => snapshot w' = snapshot w ++ [new_Order d]
  | call_deleteOrder _ => snapshot w' `sublist_of` snapshot w
  | call_markOrderAsPicked _ | call_markOrderAsExpired _
  | caller_markAsPicked _ | caller_markAsExpired _ => ids w' = ids w
  | _ => snapshot w' = snapshot w
  end.

(** The calls that cannot introduce a second order with an id already in the
    collection: [createOrder] with an id not yet there, and loads of a slot
    that holds no id twice. *)
Definition admissible (w : World) (c : Call) : Prop :=
  match c with
  | call_createOrder d => data_id d ∉ ids w
  | call_switchUser u => NoDup (map id (persisted_orders u (localStorage w)))
  | call_refreshOrders =>
      NoDup (map id (persisted_orders (currentUserPhone w) (localStorage w)))
  | _ => True
  end.

(** ** Concrete worlds *)

Definition empty_storage : LocalStorage := mkLocalStorage ∅ Available.

Definition nasi_goreng : OrderData := mkOrderData "A1" 12.5%float "nasi goreng".
Definition es_teh : OrderData := mkOrderData "A2" 3%float "es teh".

(** A fresh page: the store is constructed with nothing in [localStorage]. *)
Definition fresh_page : World := boot empty_storage.

(** User 0811 has placed one order. *)
Definition one_order : World :=
  run [call_switchUser "0811"; call_createOrder nasi_goreng] fresh_page.

(** User 0811 created an order, picked it up, and created an order with the
    same data again. *)
Definition same_id_twice : World :=
  run [call_createOrder nasi_goreng; call_markOrderAsPicked "A1";
       call_createOrder nasi_goreng] (exec (call_switchUser "0811") fresh_page).

(** ** Further descriptions and worlds *)

(** The methods that only read the store. *)
Definition is_query (c : Call) : bool :=
  match c with
  | call_getOrderById _ | call_getAllOrders | call_getOrdersByStatus _
  | call_getPendingOrders | call_getPickedOrders | call_getTotalOrdersCount
  | call_getTotalRevenue | call_orderExists _ => true
  | _ => false
  end.

(** The methods that end in [saveOrders()]. *)
Definition is_mutation (c : Call) : bool :=
  match c with
  | call_createOrder _ | call_markOrderAsPicked _ | call_markOrderAsExpired _
  | call_deleteOrder _ => true
  | _ => false
  end.

(** The phone [setCurrentUser] finds in the session record. *)
Definition recorded_phone (s : LocalStorage) : string :=
  match mode s with
  | AccessDenied => ""
  | _ => match items s !! "goodbite_user" with
         | Some (TextObject (Some p)) => p
         | _ => ""
         end
  end.

(** The number a count query answers, 0 if it threw. *)
Definition count_of (w : World) : nat :=
  match getTotalOrdersCount w with
  | (Normal n, _) => n
  | (Throw _, _) => 0
  end.

(** A returning user: the session record names 0811, whose slot holds two
    orders; the slot of 0822 holds text that is not JSON. *)
Definition returning_user_storage : LocalStorage :=
  mkLocalStorage
    (<["goodbite_user" := TextObject (Some "0811")]>
       (<["goodbite_orders_0811" :=
            TextOrders [mkOrderJSON "A1" picked 12.5%float "nasi goreng";
                        mkOrderJSON "A2" pending 3%float "es teh"]]>
          (<["goodbite_orders_0822" := TextMalformed]> ∅)))
    Available.

Definition returning_user : World := boot returning_user_storage.

(** The same page with a storage that refuses writes, or every access. *)
Definition full_storage_user : World :=
  set_localStorage
    (mkLocalStorage (items returning_user_storage) QuotaExceeded) returning_user.

Definition denied_storage_user : World :=
  set_localStorage
    (mkLocalStorage (items returning_user_storage) AccessDenied) returning_user.

(** ** Equations of the methods *)

Ltac unfold_M :=
  unfold fmapM, assign_orders, Array_push, Array_splice1, getStorageKey,
    console_error, localStorage_getItem, localStorage_setItem,
    localStorage_removeItem, alloc_object, alloc_array,
    try_catch, bind, ret, throw, gets, modify, lift in *.

Lemma World_eta w :
  mkWorld (objects w) (arrays w) (localStorage w) (console w) (orders w)
    (currentUserPhone w) = w.
Proof. by destruct w. Qed.

Lemma saveOrders_eq w :
  saveOrders w =
  (Normal tt,
   if bool_decide (currentUserPhone w = "") then
     logged "No user logged in, cannot save orders" None w
   else match mode (localStorage w) with
        | Available =>
            set_localStorage
              (mkLocalStorage
                 (<[storage_key (currentUserPhone w) :=
                      JSON_stringify (map toJSON (snapshot w))]>
                    (items (localStorage w))) Available) w
        | QuotaExceeded => logged "Error saving orders:" (Some QuotaExceededError) w
        | AccessDenied => logged "Error saving orders:" (Some SecurityError) w
        end).
Proof.
  unfold saveOrders, truthy_string. unfold_M.
  case_bool_decide; simpl; [done|].
  by destruct (mode (localStorage w)).
Qed.

Lemma Array_map_alloc l w :
  Array_map (fun json => alloc_object (fromJSON json)) l w =
  (Normal (seq (length (objects w)) (length l)),
   set_objects (objects w ++ map fromJSON l) w).
Proof.
  revert w. induction l as [|j l IH]; intros w; simpl.
  - unfold ret, set_objects. rewrite app_nil_r. by rewrite World_eta.
  - unfold bind at 1. unfold alloc_object at 1. unfold bind at 1.
    rewrite IH. unfold ret, set_objects. simpl.
    rewrite length_app, <- app_assoc. simpl.
    by replace (length (objects w) + 1) with (S (length (objects w))) by lia.
Qed.

Lemma loadOrders_eq w :
  loadOrders w =
  (Normal tt,
   if bool_decide (currentUserPhone w = "") then emptied w
   else match mode (localStorage w) with
        | AccessDenied =>
            emptied (logged "Error loading orders:" (Some SecurityError) w)
        | _ =>
            match items (localStorage w) !! storage_key (currentUserPhone w) with
            | None | Some TextEmpty => emptied w
            | Some TextMalformed =>
                emptied (logged "Error loading orders:" (Some SyntaxError) w)
            | Some (TextObject _) =>
                emptied (logged "Error loading orders:" (Some TypeError) w)
            | Some (TextOrders l) => filled l w
            end
        end).
Proof.
  unfold loadOrders, truthy_string.
  unfold try_catch, bind at 1, gets at 1.
  case_bool_decide; simpl; [done|].
  unfold bind at 1, getStorageKey, gets at 1.
  unfold bind at 1, localStorage_getItem. fold (storage_key (currentUserPhone w)).
  destruct (mode (localStorage w)); try done;
    destruct (items (localStorage w) !! storage_key (currentUserPhone w))
      as [[| |l|p]|]; simpl; try done;
    unfold bind at 1, lift; simpl;
    unfold bind at 1; rewrite Array_map_alloc; done.
Qed.

Lemma saveOrders_frame w :
  objects (snd (saveOrders w)) = objects w ∧
  arrays (snd (saveOrders w)) = arrays w ∧
  orders (snd (saveOrders w)) = orders w ∧
  currentUserPhone (snd (saveOrders w)) = currentUserPhone w ∧
  mode (localStorage (snd (saveOrders w))) = mode (localStorage w) ∧
  ∀ k, k ≠ storage_key (currentUserPhone w) →
       items (localStorage (snd (saveOrders w))) !! k = items (localStorage w) !! k.
Proof.
  rewrite saveOrders_eq. simpl.
  case_bool_decide; [done|].
  destruct (mode (localStorage w)) eqn:Hm; simpl; repeat split; try done.
  intros k Hk. by rewrite lookup_insert_ne.
Qed.

Lemma saveOrders_unbound w :
  currentUserPhone w = "" →
  saveOrders w = (Normal tt, logged "No user logged in, cannot save orders" None w).
Proof. intros H. rewrite saveOrders_eq. by rewrite bool_decide_eq_true_2. Qed.

(** When a user is bound and the storage accepts the write, the user's slot
    holds the serialised collection afterwards. *)
Lemma saveOrders_persists w :
  currentUserPhone w ≠ "" →
  mode (localStorage w) = Available →
  items (localStorage (snd (saveOrders w))) !! storage_key (currentUserPhone w)
  = Some (JSON_stringify (map toJSON (snapshot w))).
Proof.
  intros Hu Hm. rewrite saveOrders_eq. simpl.
  rewrite bool_decide_eq_false_2 by done. rewrite Hm. simpl.
  by rewrite lookup_insert_eq.
Qed.

Lemma same_heap w w' :
  objects w' = objects w → arrays w' = arrays w → orders w' = orders w →
  contents w' = contents w ∧ snapshot w' = snapshot w ∧ ids w' = ids w.
Proof.
  intros Ho Ha Hr. unfold ids, snapshot, contents, read_array, deref.
  by rewrite Ho, Ha, Hr.
Qed.

Lemma getAllOrders_eq w :
  getAllOrders w =
  (Normal (length (arrays w)), set_arrays (arrays w ++ [contents w]) w).
Proof. reflexivity. Qed.

Lemma read_array_fresh w l :
  read_array (set_arrays (arrays w ++ [l]) w) (length (arrays w)) = l.
Proof.
  unfold read_array. simpl. by rewrite list_lookup_middle.
Qed.

Lemma listAll_snapshot w : listAll w = snapshot w.
Proof.
  unfold listAll, returned_orders. rewrite getAllOrders_eq. unfold array_values.
  by rewrite read_array_fresh.
Qed.

Lemma fold_add_price w l acc :
  fold_left (add_price w) l acc =
  fold_left (fun total order => (total + price order)%float) (omap (deref w) l) acc.
Proof.
  revert acc. induction l as [|x l IH]; intros acc; simpl; [done|].
  unfold add_price at 2. destruct (deref w x); simpl; apply IH.
Qed.

Lemma omap_filter_test (w w' : World) (f : Order -> bool) (c : list nat) :
  objects w' = objects w →
  omap (deref w') (List.filter (test_object w f) c)
  = List.filter f (omap (deref w) c).
Proof.
  intros Ho.
  assert (Hd : ∀ l, deref w' l = deref w l) by (intros l; unfold deref; by rewrite Ho).
  induction c as [|l c IH]; simpl; [done|].
  unfold test_object at 1.
  destruct (deref w l) as [o|] eqn:Hl; [destruct (f o) eqn:Hf|]; simpl;
    rewrite ?Hd, ?Hl; simpl; rewrite ?Hf; try done.
  f_equal. exact IH.
Qed.

(** The scenario of the specification: bind user +1555 on empty storage,
    create an order of price 12.5, mark it picked, clear all, reload. *)
Example scenario :
  let w0 := exec (call_switchUser "+1555") fresh_page in
  let w1 := exec (call_createOrder nasi_goreng) w0 in
  let w2 := exec (call_markOrderAsPicked "A1") w1 in
  let w3 := exec call_clearAllOrders w2 in
  fst (getTotalOrdersCount w0) = Normal 0 ∧
  fst (getTotalOrdersCount w1) = Normal 1 ∧
  fst (getTotalRevenue w1) = Normal 12.5%float ∧
  returned_orders (getOrdersByStatus picked) w2
  = [mkOrder "A1" picked 12.5%float "nasi goreng"] ∧
  returned_orders (getOrdersByStatus pending) w2 = [] ∧
  fst (getTotalOrdersCount w3) = Normal 0 ∧
  fst (getTotalOrdersCount (exec call_refreshOrders w3)) = Normal 0.
Proof. vm_compute. repeat split; reflexivity. Qed.

(** ** Serialisation *)

(** C8: for every Order [x], deserialising the serialisation of [x] gives an
    Order equal to [x], so with the same id, status, price and payload. *)
Theorem fromJSON_toJSON (x : Order) :
  fromJSON (toJSON x) = x ∧
  id (fromJSON (toJSON x)) = id x ∧
  status (fromJSON (toJSON x)) = status x ∧
  price (fromJSON (toJSON x)) = price x ∧
  payload (fromJSON (toJSON x)) = payload x.
Proof. by destruct x. Qed.

(** ** Queries *)

(** C10: in every world, [getPendingOrders()] does exactly what
    [getOrdersByStatus("pending")] does, and [getPickedOrders()] exactly what
    [getOrdersByStatus("picked")] does: the same returned array, with the
    same elements in the same order, and the same world afterwards. *)
Theorem getPendingOrders_getPickedOrders_by_status (w : World) :
  getPendingOrders w = getOrdersByStatus pending w ∧
  getPickedOrders w = getOrdersByStatus picked w ∧
  returned_orders getPendingOrders w
  = List.filter (has_status pending) (snapshot w) ∧
  returned_orders getPickedOrders w
  = List.filter (has_status picked) (snapshot w).
Proof.
  split; [done|]. split; [done|].
  unfold returned_orders, getPendingOrders, getPickedOrders, bind, gets, alloc_array.
  simpl.
  unfold array_values. rewrite !read_array_fresh.
  split; by apply omap_filter_test.
Qed.

(** C7: in every world, so in every one reached by creating and deleting
    orders, [getTotalRevenue()] is the sum, from 0 and in order, of the
    prices of the orders [getAllOrders()] returns; it is 0 when the
    collection is empty. *)
Theorem getTotalRevenue_sum (w : World) :
  fst (getTotalRevenue w)
  = Normal (fold_left (fun total order => (total + price order)%float)
              (listAll w) 0%float) ∧
  (contents w = [] → fst (getTotalRevenue w) = Normal 0%float).
Proof.
  split.
  - rewrite listAll_snapshot. unfold getTotalRevenue, gets. simpl.
    by rewrite fold_add_price.
  - intros H. unfold getTotalRevenue, gets. simpl. by rewrite H.
Qed.

(** ** Equations of the mutating methods *)

Lemma saveOrders_normal w : saveOrders w = (Normal tt, snd (saveOrders w)).
Proof. by rewrite saveOrders_eq. Qed.

Lemma switchUser_eq u w : switchUser u w = loadOrders (set_currentUserPhone u w).
Proof. reflexivity. Qed.

Lemma createOrder_eq d w :
  createOrder d w = (Normal (length (objects w)), snd (saveOrders (pushed d w))).
Proof.
  unfold createOrder, bind, alloc_object, gets, Array_push, modify, ret. simpl.
  change (write_array _ _ _) with (pushed d w).
  by rewrite saveOrders_normal.
Qed.

Lemma markOrderAsPicked_eq i w :
  markOrderAsPicked i w =
  match List.find (test_object w (has_id i)) (contents w) with
  | Some l =>
      if test_object w isPending l
      then (Normal true, snd (saveOrders (update_object l markAsPicked w)))
      else (Normal false, w)
  | None => (Normal false, w)
  end.
Proof.
  unfold markOrderAsPicked, getOrderById, bind, gets, modify, ret. simpl.
  destruct (List.find _ _) as [l|]; [|done].
  destruct (test_object w isPending l); [|done].
  by rewrite saveOrders_normal.
Qed.

Lemma markOrderAsExpired_eq i w :
  markOrderAsExpired i w =
  match List.find (test_object w (has_id i)) (contents w) with
  | Some l =>
      if test_object w isPending l
      then (Normal true, snd (saveOrders (update_object l markAsExpired w)))
      else (Normal false, w)
  | None => (Normal false, w)
  end.
Proof.
  unfold markOrderAsExpired, getOrderById, bind, gets, modify, ret. simpl.
  destruct (List.find _ _) as [l|]; [|done].
  destruct (test_object w isPending l); [|done].
  by rewrite saveOrders_normal.
Qed.

Lemma deleteOrder_eq i w :
  deleteOrder i w =
  match findIndex (test_object w (has_id i)) (contents w) with
  | Some n => (Normal true, snd (saveOrders (spliced n w)))
  | None => (Normal false, w)
  end.
Proof.
  unfold deleteOrder, bind, gets, Array_splice1, modify, ret. simpl.
  destruct (findIndex _ _) as [n|]; [|done].
  change (write_array _ _ _) with (spliced n w).
  by rewrite saveOrders_normal.
Qed.

Lemma clearAllOrders_eq w :
  clearAllOrders w =
  if bool_decide (currentUserPhone w = "") then (Normal tt, emptied w)
  else match mode (localStorage w) with
       | AccessDenied => (Throw SecurityError, emptied w)
       | md =>
           (Normal tt,
            set_localStorage
              (mkLocalStorage
                 (delete (storage_key (currentUserPhone w)) (items (localStorage w)))
                 md) (emptied w))
       end.
Proof.
  unfold clearAllOrders, truthy_string. unfold_M. simpl.
  case_bool_decide; simpl; [done|].
  by destruct (mode (localStorage w)).
Qed.

(** ** What the methods do to [localStorage] *)

Lemma update_object_frame l f w :
  arrays (update_object l f w) = arrays w ∧
  orders (update_object l f w) = orders w ∧
  localStorage (update_object l f w) = localStorage w ∧
  console (update_object l f w) = console w ∧
  currentUserPhone (update_object l f w) = currentUserPhone w ∧
  length (objects (update_object l f w)) = length (objects w).
Proof.
  unfold update_object. destruct (deref w l); simpl; repeat split; try done.
  by rewrite length_insert.
Qed.

Lemma loadOrders_storage w :
  localStorage (snd (loadOrders w)) = localStorage w ∧
  currentUserPhone (snd (loadOrders w)) = currentUserPhone w.
Proof.
  rewrite loadOrders_eq. simpl. case_bool_decide; [done|].
  destruct (mode (localStorage w)); try done;
    by destruct (items (localStorage w) !! storage_key (currentUserPhone w))
      as [[| | |]|].
Qed.

Lemma saveOrders_framed w0 w :
  localStorage w = localStorage w0 →
  storage_framed (currentUserPhone w) w0 (snd (saveOrders w)).
Proof.
  intros Hs. destruct (saveOrders_frame w) as (_ & _ & _ & Hu & Hm & Hk).
  unfold storage_framed. rewrite <- Hs. by repeat split.
Qed.

(** A call that does not rebind the store writes, if at all, to the slot of
    the active user only. *)
Lemma exec_storage_frame c w :
  keeps_binding c = true →
  storage_framed (currentUserPhone w) w (exec c w).
Proof.
  intros Hc. destruct c; try discriminate Hc; unfold exec, invoke, fmapM, bind;
    try (by repeat split).
  - rewrite createOrder_eq. simpl.
    by apply (saveOrders_framed w (pushed orderData w)).
  - unfold refreshOrders. destruct (loadOrders_storage w) as [Hs Hu].
    rewrite loadOrders_eq in *. simpl in *.
    unfold storage_framed. by rewrite Hs, Hu.
  - rewrite markOrderAsPicked_eq.
    destruct (List.find _ _) as [l|]; [|by repeat split].
    destruct (test_object w isPending l); [|by repeat split]. simpl.
    destruct (update_object_frame l markAsPicked w) as (_ & _ & Hs & _ & Hu & _).
    rewrite <- Hu. by apply saveOrders_framed.
  - rewrite markOrderAsExpired_eq.
    destruct (List.find _ _) as [l|]; [|by repeat split].
    destruct (test_object w isPending l); [|by repeat split]. simpl.
    destruct (update_object_frame l markAsExpired w) as (_ & _ & Hs & _ & Hu & _).
    rewrite <- Hu. by apply saveOrders_framed.
  - rewrite deleteOrder_eq.
    destruct (findIndex _ _) as [n|]; [|by repeat split]. simpl.
    by apply (saveOrders_framed w (spliced n w)).
  - rewrite clearAllOrders_eq. case_bool_decide; [by repeat split|].
    destruct (mode (localStorage w)) eqn:Hm; simpl; repeat split; try done;
      intros k Hk; simpl; by rewrite lookup_delete_ne.
  - simpl. unfold storage_framed.
    by destruct (update_object_frame l markAsPicked w) as (_ & _ & -> & _ & -> & _).
  - simpl. unfold storage_framed.
    by destruct (update_object_frame l markAsExpired w) as (_ & _ & -> & _ & -> & _).
Qed.

Lemma run_storage_frame cs w :
  forallb keeps_binding cs = true →
  storage_framed (currentUserPhone w) w (run cs w).
Proof.
  revert w. induction cs as [|c cs IH]; intros w Hcs; simpl in *.
  - by repeat split.
  - apply andb_true_iff in Hcs as [Hc Hcs].
    destruct (exec_storage_frame c w Hc) as (Hu & Hm & Hk).
    specialize (IH (exec c w) Hcs). rewrite Hu in IH.
    destruct IH as (Hu' & Hm' & Hk').
    repeat split; [done|congruence|].
    intros k Hne. rewrite Hk' by done. by apply Hk.
Qed.

Lemma storage_key_inj a b : storage_key a = storage_key b → a = b.
Proof. unfold storage_key. intros H. by simplify_eq. Qed.

Lemma omap_lookup_seq {A} (xs ys : list A) :
  omap (fun i => (xs ++ ys)%list !! i) (seq (length xs) (length ys)) = ys.
Proof.
  revert xs. induction ys as [|y ys IH]; intros xs; simpl; [done|].
  rewrite list_lookup_middle by done. simpl. f_equal.
  specialize (IH (xs ++ [y])%list).
  rewrite length_app, <- app_assoc in IH. simpl in IH.
  by replace (length xs + 1) with (S (length xs)) in IH by lia.
Qed.

Lemma snapshot_emptied w : snapshot (emptied w) = [].
Proof.
  unfold snapshot, contents, emptied. simpl.
  change (read_array _ _) with (read_array (set_arrays (arrays w ++ [[]]) w) (length (arrays w))).
  by rewrite read_array_fresh.
Qed.

Lemma snapshot_filled l w : snapshot (filled l w) = map fromJSON l.
Proof.
  unfold snapshot, contents, filled, read_array, deref. simpl.
  rewrite list_lookup_middle by done. simpl.
  rewrite <- (length_map fromJSON l). apply omap_lookup_seq.
Qed.

(** After [switchUser(u)] the collection is what the slot of [u] held. *)
Lemma snapshot_switchUser u w :
  snapshot (snd (switchUser u w)) = persisted_orders u (localStorage w).
Proof.
  rewrite switchUser_eq, loadOrders_eq. unfold persisted_orders. simpl.
  case_bool_decide; [apply snapshot_emptied|].
  destruct (mode (localStorage w)); try apply snapshot_emptied;
    destruct (items (localStorage w) !! storage_key u) as [[| |l|p]|];
    try apply snapshot_emptied; apply snapshot_filled.
Qed.

Lemma persisted_orders_framed u v w w' :
  u ≠ v → storage_framed v w w' →
  persisted_orders u (localStorage w') = persisted_orders u (localStorage w).
Proof.
  intros Huv (_ & Hm & Hk). unfold persisted_orders.
  rewrite Hm, Hk; [done|]. intros H. by apply storage_key_inj in H.
Qed.

(** ** Session isolation *)

(** C1: the persistence key is the fixed prefix followed by the active user's
    identifier, so two distinct users have distinct keys; and after
    [switchUser(A)] then [switchUser(B)], whatever calls are made while B
    stays bound, [getAllOrders()] under A returns what it did before. *)
Theorem session_isolation (w : World) (A B : string) (cs : list Call) :
  A ≠ B →
  forallb keeps_binding cs = true →
  fst (getStorageKey w) = Normal ("goodbite_orders_" +:+ currentUserPhone w) ∧
  storage_key A ≠ storage_key B ∧
  listAll (snd (switchUser A (run cs (snd (switchUser B (snd (switchUser A w)))))))
  = listAll (snd (switchUser A w)).
Proof.
  intros HAB Hcs. split; [done|]. split.
  { intros H. by apply storage_key_inj in H. }
  rewrite !listAll_snapshot, !snapshot_switchUser.
  set (wA := snd (switchUser A w)).
  set (wB := snd (switchUser B wA)).
  assert (HsA : localStorage wA = localStorage w).
  { unfold wA. rewrite switchUser_eq.
    by destruct (loadOrders_storage (set_currentUserPhone A w)) as [-> _]. }
  assert (HB : localStorage wB = localStorage wA ∧ currentUserPhone wB = B).
  { unfold wB. rewrite switchUser_eq.
    destruct (loadOrders_storage (set_currentUserPhone B wA)) as [-> ->]. done. }
  destruct HB as [HsB HuB].
  pose proof (run_storage_frame cs wB Hcs) as Hf. rewrite HuB in Hf.
  rewrite (persisted_orders_framed A B wB _ HAB Hf).
  by rewrite HsB, HsA.
Qed.

Lemma session_isolation_witness :
  fst (getStorageKey one_order)
  = Normal ("goodbite_orders_" +:+ currentUserPhone one_order) ∧
  storage_key "0811" ≠ storage_key "0822" ∧
  listAll (snd (switchUser "0811"
    (run [call_createOrder es_teh; call_markOrderAsPicked "A2"; call_clearAllOrders]
       (snd (switchUser "0822" (snd (switchUser "0811" one_order)))))))
  = listAll (snd (switchUser "0811" one_order)).
Proof.
  apply (session_isolation one_order "0811" "0822"
           [call_createOrder es_teh; call_markOrderAsPicked "A2"; call_clearAllOrders]).
  - discriminate.
  - reflexivity.
Defined.

(** ** Loading *)

Lemma contents_emptied w : contents (emptied w) = [].
Proof.
  unfold contents, emptied. simpl.
  change (read_array _ _) with (read_array (set_arrays (arrays w ++ [[]]) w) (length (arrays w))).
  by rewrite read_array_fresh.
Qed.

Lemma loadOrders_normal w : fst (loadOrders w) = Normal tt.
Proof. by rewrite loadOrders_eq. Qed.

(** C4, as the code has it: [switchUser] and every load return normally in
    every world.  When the user's slot is missing, or holds the empty string,
    the collection becomes empty and nothing is logged; when the slot holds
    text that is not the JSON of an array, or when [localStorage] cannot be
    read, the collection becomes empty and the error is logged. *)
Theorem load_degrades_to_empty (w : World) (userKey : string) :
  fst (switchUser userKey w) = Normal tt ∧
  fst (loadOrders w) = Normal tt ∧
  fst (refreshOrders w) = Normal tt ∧
  (userKey ≠ "" → mode (localStorage w) ≠ AccessDenied →
   items (localStorage w) !! storage_key userKey = None ∨
   items (localStorage w) !! storage_key userKey = Some TextEmpty →
   contents (snd (switchUser userKey w)) = [] ∧
   console (snd (switchUser userKey w)) = console w) ∧
  (userKey ≠ "" → mode (localStorage w) ≠ AccessDenied →
   items (localStorage w) !! storage_key userKey = Some TextMalformed →
   contents (snd (switchUser userKey w)) = [] ∧
   console (snd (switchUser userKey w))
   = console w ++ [("Error loading orders:", Some SyntaxError)]) ∧
  (∀ p, userKey ≠ "" → mode (localStorage w) ≠ AccessDenied →
   items (localStorage w) !! storage_key userKey = Some (TextObject p) →
   contents (snd (switchUser userKey w)) = [] ∧
   console (snd (switchUser userKey w))
   = console w ++ [("Error loading orders:", Some TypeError)]) ∧
  (userKey ≠ "" → mode (localStorage w) = AccessDenied →
   contents (snd (switchUser userKey w)) = [] ∧
   console (snd (switchUser userKey w))
   = console w ++ [("Error loading orders:", Some SecurityError)]).
Proof.
  rewrite switchUser_eq. unfold refreshOrders.
  rewrite !loadOrders_normal. do 3 (split; [done|]).
  rewrite loadOrders_eq. simpl.
  repeat split; intros; rewrite bool_decide_eq_false_2 by done;
    destruct (mode (localStorage w)); try done;
    repeat match goal with
           | H : _ ∨ _ |- _ => destruct H
           | H : items _ !! _ = _ |- _ => rewrite H
           end;
    try apply contents_emptied; done.
Qed.

Lemma load_degrades_to_empty_witness :
  contents (snd (switchUser "0811" fresh_page)) = [] ∧
  console (snd (switchUser "0811" fresh_page)) = console fresh_page.
Proof.
  refine (proj1 (proj2 (proj2 (proj2
            (load_degrades_to_empty fresh_page "0811")))) _ _ _).
  - discriminate.
  - discriminate.
  - left. reflexivity.
Defined.

(** C4, as stated, fails where the slot is missing: the collection becomes
    empty but nothing is logged. *)
Lemma missing_slot_not_logged :
  items (localStorage fresh_page) !! storage_key "0811" = None ∧
  fst (switchUser "0811" fresh_page) = Normal tt ∧
  contents (snd (switchUser "0811" fresh_page)) = [] ∧
  console (snd (switchUser "0811" fresh_page)) = console fresh_page ∧
  console fresh_page = [].
Proof. vm_compute. repeat split; reflexivity. Qed.

(** ** Creating *)

Lemma contents_write_array w l :
  orders w < length (arrays w) → contents (write_array (orders w) l w) = l.
Proof.
  intros H. unfold contents, read_array, write_array. simpl.
  by rewrite list_lookup_insert_eq.
Qed.

Lemma contents_pushed d w :
  orders w < length (arrays w) →
  contents (pushed d w) = contents w ++ [length (objects w)].
Proof.
  intros H. unfold pushed.
  by rewrite (contents_write_array (set_objects _ w)).
Qed.

Lemma omap_deref_app (h h' : list Order) (c : list nat) :
  Forall (fun l => l < length h) c →
  omap (fun l => (h ++ h') !! l) c = omap (fun l => h !! l) c.
Proof.
  intros Hc. apply list_omap_ext. induction Hc as [|l c Hl Hc IH]; constructor.
  - by apply lookup_app_l.
  - apply IH.
Qed.

Lemma snapshot_pushed d w :
  wf w → snapshot (pushed d w) = snapshot w ++ [new_Order d].
Proof.
  intros [Hr Hc]. unfold snapshot. rewrite contents_pushed by done.
  rewrite omap_app. unfold deref, pushed. simpl.
  rewrite omap_deref_app by done. f_equal.
  by rewrite list_lookup_middle.
Qed.

Lemma invoke_unbound c w :
  currentUserPhone w = "" →
  (∃ v, fst (invoke c w) = Normal v) ∧ localStorage (exec c w) = localStorage w.
Proof.
  intros Hu. destruct c; unfold exec, invoke, fmapM, bind;
    try (by split; [eexists|]).
  - rewrite switchUser_eq, loadOrders_eq. simpl.
    split; [by eexists|].
    by destruct (loadOrders_storage (set_currentUserPhone userPhone w)) as [Hs _];
      rewrite loadOrders_eq in Hs.
  - rewrite createOrder_eq, saveOrders_unbound by done. simpl. by split; [eexists|].
  - unfold refreshOrders. rewrite loadOrders_eq. simpl. split; [by eexists|].
    by rewrite bool_decide_eq_true_2.
  - rewrite markOrderAsPicked_eq.
    destruct (List.find _ _) as [l|]; [|by split; [eexists|]].
    destruct (test_object w isPending l); [|by split; [eexists|]].
    destruct (update_object_frame l markAsPicked w) as (_ & _ & Hs & _ & Hp & _).
    rewrite saveOrders_unbound by congruence. simpl. by split; [eexists|].
  - rewrite markOrderAsExpired_eq.
    destruct (List.find _ _) as [l|]; [|by split; [eexists|]].
    destruct (test_object w isPending l); [|by split; [eexists|]].
    destruct (update_object_frame l markAsExpired w) as (_ & _ & Hs & _ & Hp & _).
    rewrite saveOrders_unbound by congruence. simpl. by split; [eexists|].
  - rewrite deleteOrder_eq.
    destruct (findIndex _ _) as [n|]; [|by split; [eexists|]].
    rewrite saveOrders_unbound by done. simpl. by split; [eexists|].
  - rewrite clearAllOrders_eq, bool_decide_eq_true_2 by done. by split; [eexists|].
  - simpl. split; [by eexists|].
    by destruct (update_object_frame l markAsPicked w) as (_ & _ & Hs & _).
  - simpl. split; [by eexists|].
    by destruct (update_object_frame l markAsExpired w) as (_ & _ & Hs & _).
Qed.

(** C5: while no user is bound, every call returns normally and leaves
    [localStorage] as it was, the persist step being skipped with a log
    entry; and [createOrder(data)] still appends the new order, built from
    [data] with status pending, to the in-memory collection and returns
    it. *)
Theorem unbound_session_skips_persist (w : World) (data : OrderData) :
  wf w →
  currentUserPhone w = "" →
  (∀ c, (∃ v, fst (invoke c w) = Normal v) ∧
        localStorage (exec c w) = localStorage w) ∧
  saveOrders w
  = (Normal tt, logged "No user logged in, cannot save orders" None w) ∧
  ∃ newOrder w',
    createOrder data w = (Normal newOrder, w') ∧
    localStorage w' = localStorage w ∧
    contents w' = contents w ++ [newOrder] ∧
    deref w' newOrder = Some (new_Order data) ∧
    snapshot w' = snapshot w ++ [new_Order data].
Proof.
  intros Hwf Hu. split; [|split].
  - intros c. by apply invoke_unbound.
  - by apply saveOrders_unbound.
  - exists (length (objects w)).
    exists (logged "No user logged in, cannot save orders" None (pushed data w)).
    rewrite createOrder_eq, saveOrders_unbound by done. simpl.
    split; [done|]. split; [done|].
    destruct (same_heap (pushed data w)
                (logged "No user logged in, cannot save orders" None (pushed data w)))
      as (Hc & Hs & _); try done.
    rewrite Hc, Hs, contents_pushed, snapshot_pushed by (done || apply Hwf).
    repeat split. unfold deref. simpl. by rewrite list_lookup_middle.
Qed.

Lemma unbound_session_skips_persist_witness :
  (∀ c, (∃ v, fst (invoke c fresh_page) = Normal v) ∧
        localStorage (exec c fresh_page) = localStorage fresh_page) ∧
  saveOrders fresh_page
  = (Normal tt, logged "No user logged in, cannot save orders" None fresh_page) ∧
  ∃ newOrder w',
    createOrder nasi_goreng fresh_page = (Normal newOrder, w') ∧
    localStorage w' = localStorage fresh_page ∧
    contents w' = contents fresh_page ++ [newOrder] ∧
    deref w' newOrder = Some (new_Order nasi_goreng) ∧
    snapshot w' = snapshot fresh_page ++ [new_Order nasi_goreng].
Proof.
  apply (unbound_session_skips_persist fresh_page nasi_goreng).
  - split; [vm_compute; lia | vm_compute; constructor].
  - reflexivity.
Defined.

(** ** Status transitions *)

Lemma reachable_run w cs :
  reachable w → forallb is_method cs = true → reachable (run cs w).
Proof.
  revert w. induction cs as [|c cs IH]; intros w Hw Hcs; simpl in *; [done|].
  apply andb_true_iff in Hcs as [Hc Hcs]. apply IH; [|done].
  constructor; [done|]. by destruct c.
Qed.

Lemma find_test_object w f c l :
  List.find (test_object w f) c = Some l →
  l ∈ c ∧ ∃ o, deref w l = Some o ∧ f o = true.
Proof.
  intros H. apply List.find_some in H as [Hin Ht]. split.
  - by apply list_elem_of_In.
  - unfold test_object in Ht. destruct (deref w l) as [o|]; [|done]. by exists o.
Qed.

Lemma find_test_object_none w f c l o :
  List.find (test_object w f) c = None →
  l ∈ c → deref w l = Some o → f o = false.
Proof.
  intros H Hin Hl. apply list_elem_of_In in Hin.
  pose proof (List.find_none _ _ H l Hin) as Ht.
  unfold test_object in Ht. by rewrite Hl in Ht.
Qed.

Lemma NoDup_fmap_eq {A B} (f : A → B) (l : list A) x y :
  NoDup (map f l) → x ∈ l → y ∈ l → f x = f y → x = y.
Proof.
  induction l as [|a l IH]; simpl; intros Hnd Hx Hy Hf.
  - by apply elem_of_nil in Hx.
  - apply NoDup_cons in Hnd as [Ha Hnd].
    apply elem_of_cons in Hx as [->|Hx]; apply elem_of_cons in Hy as [->|Hy];
      try done.
    + exfalso. apply Ha. rewrite Hf. by apply (list_elem_of_fmap_2 f).
    + exfalso. apply Ha. rewrite <- Hf. by apply (list_elem_of_fmap_2 f).
    + by apply IH.
Qed.

Lemma transition_spec (method : string -> M bool) (s : Status)
    (transition : Order -> Order) :
  (∀ i w, method i w =
          match List.find (test_object w (has_id i)) (contents w) with
          | Some l =>
              if test_object w isPending l
              then (Normal true, snd (saveOrders (update_object l transition w)))
              else (Normal false, w)
          | None => (Normal false, w)
          end) →
  (∀ o, transition o = if isPending o then with_status s o else o) →
  ∀ i w, transition_contract method s transition i w.
Proof.
  intros Hm Ht i w. unfold transition_contract, first_with_id. rewrite Hm.
  destruct (List.find _ _) as [l|] eqn:Hfind.
  - destruct (find_test_object _ _ _ _ Hfind) as (Hin & o & Hl & Hid).
    unfold has_id in Hid. apply bool_decide_eq_true in Hid.
    unfold test_object at 1. rewrite Hl.
    destruct (isPending o) eqn:Hp.
    + apply bool_decide_eq_true in Hp.
      eexists true, _. split; [done|].
      split; [split; [by exists l, o | done]|].
      split.
      { intros _. split; [|done]. intros _. exists o.
        split; [|done]. apply list_elem_of_omap. by exists l. }
      split; [|done]. intros _. exists l, o.
      destruct (saveOrders_frame (update_object l transition w))
        as (Ho & Ha & Hr & Hu & Hmode & _).
      destruct (update_object_frame l transition w)
        as (Ha' & Hr' & Hs' & _ & Hu' & _).
      assert (Hobj : objects (update_object l transition w)
                     = <[l := with_status s o]> (objects w)).
      { unfold update_object. rewrite Hl. simpl. rewrite Ht.
        unfold isPending. by rewrite (bool_decide_eq_true_2 _ Hp). }
      repeat split; try done.
      * unfold deref. rewrite Ho, Hobj. apply list_lookup_insert_eq.
        by apply lookup_lt_Some with o.
      * intros l' Hne. unfold deref. rewrite Ho, Hobj.
        by apply list_lookup_insert_ne.
      * unfold contents, read_array. by rewrite Ha, Hr, Ha', Hr'.
      * intros Hne Hav.
        destruct (same_heap (update_object l transition w)
                    (snd (saveOrders (update_object l transition w))))
          as (_ & -> & _); try done.
        rewrite <- Hu'. apply saveOrders_persists; by rewrite ?Hu', ?Hs'.
    + apply bool_decide_eq_false in Hp.
      exists false, w. split; [done|].
      split; [split; [done|]|].
      { intros (l' & o' & Hl' & Ho' & Hst). by simplify_eq. }
      split; [|done].
      intros Hnd. split; [done|]. intros (o' & Ho' & Hid' & Hst).
      exfalso. apply Hp.
      assert (o ∈ snapshot w) by (apply list_elem_of_omap; by exists l).
      assert (o' = o) as ->; [|done].
      apply (NoDup_fmap_eq id (snapshot w)); try done. congruence.
  - exists false, w. split; [done|].
    split; [split; [done|]|].
    { by intros (l' & o' & Hl' & _). }
    split; [|done].
    intros _. split; [done|]. intros (o' & Ho' & Hid' & Hst).
    apply list_elem_of_omap in Ho' as (l' & Hin' & Hl').
    pose proof (find_test_object_none _ _ _ _ _ Hfind Hin' Hl') as Hf.
    unfold has_id in Hf. by apply bool_decide_eq_false in Hf.
Qed.

(** C2, as the code has it: [markOrderAsPicked(id)] and
    [markOrderAsExpired(id)] throw nothing and return a boolean.  It is
    [true], the order's status is set to picked (expired) and the persist
    step runs, exactly when the first order of the collection with that id is
    pending; while ids are unique that is: exactly when an order with that id
    exists and is pending.  Otherwise it is [false] and nothing changes. *)
Theorem mark_iff_first_with_id_pending (orderId : string) (w : World) :
  transition_contract markOrderAsPicked picked markAsPicked orderId w ∧
  transition_contract markOrderAsExpired expired markAsExpired orderId w.
Proof.
  split; apply transition_spec; intros;
    auto using markOrderAsPicked_eq, markOrderAsExpired_eq.
Qed.

(** C2, as stated, fails once two orders share an id: an order with id A1
    exists and is pending, yet both calls return failure. *)
Lemma pending_behind_picked_not_marked :
  reachable same_id_twice ∧
  snapshot same_id_twice
  = [mkOrder "A1" picked 12.5%float "nasi goreng";
     mkOrder "A1" pending 12.5%float "nasi goreng"] ∧
  fst (markOrderAsPicked "A1" same_id_twice) = Normal false ∧
  fst (markOrderAsExpired "A1" same_id_twice) = Normal false.
Proof.
  split.
  - apply reachable_run; [|reflexivity].
    apply reachable_step; [apply reachable_boot | exact I].
  - vm_compute. repeat split; reflexivity.
Qed.

Lemma mark_iff_first_with_id_pending_witness :
  (transition_contract markOrderAsPicked picked markAsPicked "A1" one_order ∧
   transition_contract markOrderAsExpired expired markAsExpired "A1" one_order) ∧
  fst (markOrderAsPicked "A1" one_order) = Normal true ∧
  NoDup (ids one_order).
Proof.
  split; [exact (mark_iff_first_with_id_pending "A1" one_order)|].
  split; [vm_compute; reflexivity|].
  vm_compute. apply NoDup_singleton.
Defined.

(** ** Deleting *)

Lemma findIndex_split {A} (f : A → bool) (c : list A) n :
  findIndex f c = Some n →
  ∃ c1 x c2, c = c1 ++ x :: c2 ∧ length c1 = n ∧ f x = true ∧
             Forall (fun y => f y = false) c1.
Proof.
  revert n. induction c as [|a c IH]; intros n; simpl; [done|].
  destruct (f a) eqn:Hf.
  - intros [= <-]. by exists [], a, c.
  - destruct (findIndex f c) as [m|]; [|done]. simpl. intros [= <-].
    destruct (IH m eq_refl) as (c1 & x & c2 & -> & <- & Hx & Hc1).
    exists (a :: c1), x, c2. repeat split; try done. by constructor.
Qed.

Lemma findIndex_None {A} (f : A → bool) (c : list A) :
  findIndex f c = None → Forall (fun y => f y = false) c.
Proof.
  induction c as [|a c IH]; simpl; [by constructor|].
  destruct (f a) eqn:Hf; [done|].
  destruct (findIndex f c); [done|]. intros _. constructor; [done|by apply IH].
Qed.

Lemma find_app_fail {A} (f : A → bool) (c1 c2 : list A) :
  Forall (fun y => f y = false) c1 → List.find f (c1 ++ c2) = List.find f c2.
Proof.
  induction 1 as [|a c1 Ha _ IH]; simpl; [done|]. by rewrite Ha.
Qed.

Lemma find_none_iff {A} (f : A → bool) (c : list A) :
  List.find f c = None ↔ Forall (fun y => f y = false) c.
Proof.
  induction c as [|a c IH]; simpl.
  - split; [by constructor|done].
  - destruct (f a) eqn:Hf.
    + split; [done|]. intros H. apply Forall_cons in H as [H _]. congruence.
    + rewrite IH. split; [by constructor|]. by intros [_ H]%Forall_cons.
Qed.

Lemma test_object_frame w w' f :
  objects w' = objects w → test_object w' f = test_object w f.
Proof. intros H. unfold test_object, deref. by rewrite H. Qed.

(** References that fail the id test denote orders with another id, and
    conversely. *)
Lemma Forall_test_has_id w i c :
  Forall (fun l => test_object w (has_id i) l = false) c ↔
  Forall (fun o => id o ≠ i) (omap (deref w) c).
Proof.
  induction c as [|l c IH]; simpl; [split; constructor|].
  rewrite Forall_cons, IH. unfold test_object at 1, has_id.
  destruct (deref w l) as [o|]; simpl.
  - rewrite Forall_cons, bool_decide_eq_false. done.
  - tauto.
Qed.

(** C6, as the code has it: [deleteOrder(id)] returns [true] exactly when an
    order with that id is in the collection; it then removes the first such
    order, keeps the others in their order, and runs the persist step.  A
    following [getOrderById(id)] finds nothing exactly when no later order
    carries the same id, so always while ids are unique.  When no order has
    that id, [deleteOrder] returns [false] and changes nothing. *)
Theorem delete_removes_first_with_id (orderId : string) (w : World) :
  wf w →
  ∃ b w',
    deleteOrder orderId w = (Normal b, w') ∧
    (b = true ↔ ∃ o, o ∈ snapshot w ∧ id o = orderId) ∧
    (b = true →
     ∃ before o after n,
       snapshot w = before ++ o :: after ∧ id o = orderId ∧
       Forall (fun o' => id o' ≠ orderId) before ∧
       snapshot w' = before ++ after ∧
       objects w' = objects w ∧
       w' = snd (saveOrders (spliced n w)) ∧
       (currentUserPhone w ≠ "" → mode (localStorage w) = Available →
        items (localStorage w') !! storage_key (currentUserPhone w)
        = Some (JSON_stringify (map toJSON (snapshot w')))) ∧
       (fst (getOrderById orderId w') = Normal None ↔
        Forall (fun o' => id o' ≠ orderId) after) ∧
       (NoDup (ids w) → fst (getOrderById orderId w') = Normal None)) ∧
    (b = false → w' = w).
Proof.
  intros [Hr _]. rewrite deleteOrder_eq.
  destruct (findIndex _ _) as [n|] eqn:Hfind.
  - destruct (findIndex_split _ _ _ Hfind) as (c1 & l & c2 & Hc & Hn & Hl & Hc1).
    unfold test_object in Hl. destruct (deref w l) as [o|] eqn:Ho; [|done].
    unfold has_id in Hl. apply bool_decide_eq_true in Hl.
    assert (Hsnap : snapshot w = omap (deref w) c1 ++ o :: omap (deref w) c2).
    { unfold snapshot. rewrite Hc, omap_app. simpl. by rewrite Ho. }
    eexists true, _. split; [done|]. split.
    { split; [|done]. intros _. exists o. split; [|done].
      rewrite Hsnap. apply elem_of_app. right. apply elem_of_cons. by left. }
    split; [|done]. intros _.
    exists (omap (deref w) c1), o, (omap (deref w) c2), n.
    destruct (saveOrders_frame (spliced n w)) as (Hobj & Harr & Hord & _).
    assert (Hcont : contents (snd (saveOrders (spliced n w))) = c1 ++ c2).
    { destruct (same_heap (spliced n w) (snd (saveOrders (spliced n w))))
        as (-> & _); try done.
      unfold spliced. rewrite contents_write_array by done.
      rewrite Hc, <- Hn. apply delete_middle. }
    assert (Hsnap' : snapshot (snd (saveOrders (spliced n w)))
                     = omap (deref w) c1 ++ omap (deref w) c2).
    { unfold snapshot. rewrite Hcont, omap_app. unfold deref. by rewrite Hobj. }
    assert (Hget : fst (getOrderById orderId (snd (saveOrders (spliced n w))))
                   = Normal (List.find (test_object w (has_id orderId)) c2)).
    { unfold getOrderById, gets. simpl. rewrite Hcont.
      rewrite (test_object_frame w) by done. by rewrite find_app_fail. }
    assert (Hiff : fst (getOrderById orderId (snd (saveOrders (spliced n w))))
                   = Normal None ↔
                   Forall (fun o' => id o' ≠ orderId) (omap (deref w) c2)).
    { rewrite Hget, <- Forall_test_has_id, <- find_none_iff.
      split; [by intros [= ->]|by intros ->]. }
    repeat split; try done.
    + by apply Forall_test_has_id.
    + intros Hu Hm. rewrite Hsnap', <- Hsnap'.
      destruct (same_heap (spliced n w) (snd (saveOrders (spliced n w))))
        as (_ & -> & _); try done.
      by apply (saveOrders_persists (spliced n w)).
    + apply Hiff.
    + apply Hiff.
    + intros Hnd. apply Hiff. unfold ids in Hnd. rewrite Hsnap in Hnd.
      rewrite map_app in Hnd. apply NoDup_app in Hnd as (_ & _ & Hnd).
      simpl in Hnd. apply NoDup_cons in Hnd as [Hnotin _].
      apply Forall_forall. intros o' Ho' Hid. apply Hnotin.
      rewrite Hl, <- Hid. by apply (list_elem_of_fmap_2 id).
  - exists false, w. split; [done|]. split; [|done].
    split; [done|]. intros (o & Ho & Hid).
    apply findIndex_None, Forall_test_has_id in Hfind.
    fold (snapshot w) in Hfind. rewrite Forall_forall in Hfind.
    exfalso. by apply (Hfind o).
Qed.

Lemma delete_removes_first_with_id_witness :
  (∃ b w',
     deleteOrder "A1" one_order = (Normal b, w') ∧
     (b = true ↔ ∃ o, o ∈ snapshot one_order ∧ id o = "A1") ∧
     (b = true →
      ∃ before o after n,
        snapshot one_order = before ++ o :: after ∧ id o = "A1" ∧
        Forall (fun o' => id o' ≠ "A1") before ∧
        snapshot w' = before ++ after ∧
        objects w' = objects one_order ∧
        w' = snd (saveOrders (spliced n one_order)) ∧
        (currentUserPhone one_order ≠ "" →
         mode (localStorage one_order) = Available →
         items (localStorage w') !! storage_key (currentUserPhone one_order)
         = Some (JSON_stringify (map toJSON (snapshot w')))) ∧
        (fst (getOrderById "A1" w') = Normal None ↔
         Forall (fun o' => id o' ≠ "A1") after) ∧
        (NoDup (ids one_order) → fst (getOrderById "A1" w') = Normal None)) ∧
     (b = false → w' = one_order)) ∧
  fst (deleteOrder "A1" one_order) = Normal true ∧
  fst (getOrderById "A1" (snd (deleteOrder "A1" one_order))) = Normal None.
Proof.
  split.
  - apply (delete_removes_first_with_id "A1" one_order).
    split; [vm_compute; lia|]. vm_compute. repeat constructor.
  - vm_compute. split; reflexivity.
Defined.

(** C6, as stated, fails once two orders share an id: after a successful
    [deleteOrder("A1")], [getOrderById("A1")] still finds an order. *)
Lemma deleted_id_still_found :
  reachable same_id_twice ∧
  fst (deleteOrder "A1" same_id_twice) = Normal true ∧
  fst (getOrderById "A1" (snd (deleteOrder "A1" same_id_twice))) = Normal (Some 1) ∧
  deref (snd (deleteOrder "A1" same_id_twice)) 1
  = Some (mkOrder "A1" pending 12.5%float "nasi goreng").
Proof.
  split.
  - apply reachable_run; [|reflexivity].
    apply reachable_step; [apply reachable_boot | exact I].
  - vm_compute. repeat split; reflexivity.
Qed.

(** ** Handing out the collection *)

Lemma contents_alloc w l :
  orders w < length (arrays w) →
  contents (set_arrays (arrays w ++ [l]) w) = contents w.
Proof.
  intros H. unfold contents, read_array. simpl. by rewrite lookup_app_l.
Qed.

Lemma contents_caller_write w r l :
  r ≠ orders w → contents (write_array r l w) = contents w.
Proof.
  intros H. unfold contents, read_array, write_array. simpl.
  by rewrite list_lookup_insert_ne.
Qed.

(** C3, as the code has it: [getAllOrders()] returns a new array holding the
    store's references in order.  Whatever a caller writes to that array
    leaves the store's collection, its objects and [localStorage] unchanged.
    The elements are the store's own [Order] objects, not copies: a caller
    who calls [markAsPicked()] or [markAsExpired()] on one acts on the
    store's object, which leaves the sequence of references and
    [localStorage] unchanged. *)
Theorem getAllOrders_copies_array_only (w : World) :
  wf w →
  ∃ r w',
    getAllOrders w = (Normal r, w') ∧
    r ≠ orders w' ∧
    read_array w' r = contents w ∧
    array_values w' r = snapshot w' ∧
    contents w' = contents w ∧
    objects w' = objects w ∧
    localStorage w' = localStorage w ∧
    (∀ l, permitted w' (caller_writes_array r l) ∧
          contents (exec (caller_writes_array r l) w') = contents w ∧
          snapshot (exec (caller_writes_array r l) w') = snapshot w ∧
          objects (exec (caller_writes_array r l) w') = objects w ∧
          localStorage (exec (caller_writes_array r l) w') = localStorage w) ∧
    (∀ l c, c = caller_markAsPicked l ∨ c = caller_markAsExpired l →
            contents (exec c w') = contents w ∧
            localStorage (exec c w') = localStorage w).
Proof.
  intros [Hr Hc]. exists (length (arrays w)), (set_arrays (arrays w ++ [contents w]) w).
  rewrite getAllOrders_eq. split; [done|].
  assert (Hcont : contents (set_arrays (arrays w ++ [contents w]) w) = contents w)
    by by apply contents_alloc.
  split; [simpl; lia|].
  split; [apply read_array_fresh|].
  split; [unfold array_values, snapshot; by rewrite read_array_fresh, Hcont|].
  do 3 (split; [done|]).
  split.
  - intros l. unfold exec. simpl.
    assert (Hne : length (arrays w) ≠ orders (set_arrays (arrays w ++ [contents w]) w))
      by (simpl; lia).
    split; [done|].
    assert (Hcw : contents (write_array (length (arrays w)) l
                              (set_arrays (arrays w ++ [contents w]) w)) = contents w)
      by (by rewrite contents_caller_write).
    repeat split; try done.
    unfold snapshot. by rewrite Hcw.
  - intros l c Hcall. set (w' := set_arrays (arrays w ++ [contents w]) w) in *.
    assert (∃ f, exec c w' = update_object l f w') as [f ->]
      by (destruct Hcall as [-> | ->]; by eexists).
    destruct (update_object_frame l f w') as (Ha & Ho & Hs & _).
    split; [|done]. rewrite <- Hcont. unfold contents, read_array. by rewrite Ha, Ho.
Qed.

Lemma getAllOrders_copies_array_only_witness :
  ∃ r w',
    getAllOrders one_order = (Normal r, w') ∧
    r ≠ orders w' ∧
    read_array w' r = contents one_order ∧
    array_values w' r = snapshot w' ∧
    contents w' = contents one_order ∧
    objects w' = objects one_order ∧
    localStorage w' = localStorage one_order ∧
    (∀ l, permitted w' (caller_writes_array r l) ∧
          contents (exec (caller_writes_array r l) w') = contents one_order ∧
          snapshot (exec (caller_writes_array r l) w') = snapshot one_order ∧
          objects (exec (caller_writes_array r l) w') = objects one_order ∧
          localStorage (exec (caller_writes_array r l) w') = localStorage one_order) ∧
    (∀ l c, c = caller_markAsPicked l ∨ c = caller_markAsExpired l →
            contents (exec c w') = contents one_order ∧
            localStorage (exec c w') = localStorage one_order).
Proof.
  apply (getAllOrders_copies_array_only one_order).
  split; [vm_compute; lia|]. vm_compute. repeat constructor.
Defined.

(** C3, as stated, fails for the records: the array [getAllOrders()] returns
    holds the store's own object, and a caller's [markAsPicked()] on it
    changes the store's in-memory collection. *)
Lemma caller_mutation_reaches_store :
  reachable one_order ∧
  fst (getAllOrders one_order) = Normal 3 ∧
  read_array (snd (getAllOrders one_order)) 3 = [0] ∧
  snapshot (snd (getAllOrders one_order))
  = [mkOrder "A1" pending 12.5%float "nasi goreng"] ∧
  snapshot (exec (caller_markAsPicked 0) (snd (getAllOrders one_order)))
  = [mkOrder "A1" picked 12.5%float "nasi goreng"].
Proof.
  split.
  - apply reachable_run; [apply reachable_boot | reflexivity].
  - vm_compute. repeat split; reflexivity.
Qed.

(** ** Well-formed worlds *)

Lemma wf_emptied w : wf (emptied w).
Proof.
  split; [unfold emptied; simpl; rewrite length_app; simpl; lia|].
  rewrite contents_emptied. constructor.
Qed.

Lemma contents_filled l w : contents (filled l w) = seq (length (objects w)) (length l).
Proof.
  unfold contents, filled, read_array. simpl. by rewrite list_lookup_middle.
Qed.

Lemma wf_filled l w : wf (filled l w).
Proof.
  split; [unfold filled; simpl; rewrite length_app; simpl; lia|].
  rewrite contents_filled. apply Forall_seq. intros j Hj.
  unfold filled. simpl. rewrite length_app, length_map. lia.
Qed.

Lemma wf_loadOrders w : wf (snd (loadOrders w)).
Proof.
  rewrite loadOrders_eq. simpl. case_bool_decide; [apply wf_emptied|].
  destruct (mode (localStorage w)); try apply wf_emptied;
    destruct (items (localStorage w) !! storage_key (currentUserPhone w))
      as [[| |l|p]|]; try apply wf_emptied; apply wf_filled.
Qed.

Lemma wf_same_heap w w' :
  objects w' = objects w → arrays w' = arrays w → orders w' = orders w →
  wf w → wf w'.
Proof.
  intros Ho Ha Hr [H1 H2]. unfold wf, contents, read_array in *.
  by rewrite Ho, Ha, Hr.
Qed.

Lemma wf_saveOrders w : wf w → wf (snd (saveOrders w)).
Proof.
  destruct (saveOrders_frame w) as (Ho & Ha & Hr & _). by apply wf_same_heap.
Qed.

Lemma wf_pushed d w : wf w → wf (pushed d w).
Proof.
  intros [Hr Hc]. split.
  - unfold pushed, write_array. simpl. by rewrite length_insert.
  - rewrite contents_pushed by done. unfold pushed. simpl.
    rewrite length_app. simpl. apply Forall_app. split.
    + eapply Forall_impl; [exact Hc|]. simpl. intros; lia.
    + repeat constructor. lia.
Qed.

Lemma Forall_delete_index {A} (P : A → Prop) (c : list A) n :
  Forall P c → Forall P (delete n c).
Proof.
  intros H. revert n. induction H as [|a c Ha Hc IH]; intros [|n]; simpl;
    try done; by constructor.
Qed.

Lemma wf_spliced n w : wf w → wf (spliced n w).
Proof.
  intros [Hr Hc]. split.
  - unfold spliced, write_array. simpl. by rewrite length_insert.
  - unfold spliced. rewrite contents_write_array by done.
    by apply Forall_delete_index.
Qed.

Lemma wf_update_object l f w : wf w → wf (update_object l f w).
Proof.
  intros [Hr Hc].
  destruct (update_object_frame l f w) as (Ha & Ho & _ & _ & _ & Hlen).
  unfold wf, contents, read_array. by rewrite Ha, Ho, Hlen.
Qed.

Lemma wf_alloc_array l w : wf w → wf (set_arrays (arrays w ++ [l]) w).
Proof.
  intros [Hr Hc]. split.
  - simpl. rewrite length_app. simpl. lia.
  - by rewrite contents_alloc.
Qed.

Lemma wf_caller_write r l w : r ≠ orders w → wf w → wf (write_array r l w).
Proof.
  intros Hne [Hr Hc]. split.
  - unfold write_array. simpl. by rewrite length_insert.
  - by rewrite contents_caller_write.
Qed.

Lemma wf_set_localStorage s w : wf w → wf (set_localStorage s w).
Proof. by apply wf_same_heap. Qed.

Lemma exec_wf c w : wf w → permitted w c → wf (exec c w).
Proof.
  intros Hw Hp. destruct c; unfold exec, invoke, fmapM, bind; try done.
  - rewrite switchUser_eq, loadOrders_eq. simpl.
    pose proof (wf_loadOrders (set_currentUserPhone userPhone w)) as H.
    by rewrite loadOrders_eq in H.
  - simpl. apply (wf_emptied (set_currentUserPhone "" w)).
  - rewrite createOrder_eq. simpl. by apply wf_saveOrders, wf_pushed.
  - simpl. by apply wf_alloc_array.
  - unfold refreshOrders. pose proof (wf_loadOrders w) as H.
    rewrite loadOrders_eq in *. done.
  - simpl. by apply wf_alloc_array.
  - simpl. by apply wf_alloc_array.
  - simpl. by apply wf_alloc_array.
  - rewrite markOrderAsPicked_eq.
    destruct (List.find _ _) as [l|]; [|done].
    destruct (test_object w isPending l); [|done]. simpl.
    by apply wf_saveOrders, wf_update_object.
  - rewrite markOrderAsExpired_eq.
    destruct (List.find _ _) as [l|]; [|done].
    destruct (test_object w isPending l); [|done]. simpl.
    by apply wf_saveOrders, wf_update_object.
  - rewrite deleteOrder_eq.
    destruct (findIndex _ _) as [n|]; [|done]. simpl.
    by apply wf_saveOrders, wf_spliced.
  - rewrite clearAllOrders_eq. case_bool_decide; [apply wf_emptied|].
    destruct (mode (localStorage w)); simpl;
      try apply wf_set_localStorage; apply wf_emptied.
  - simpl. by apply wf_caller_write.
  - simpl. by apply wf_update_object.
  - simpl. by apply wf_update_object.
Qed.

Lemma setCurrentUser_normal w : fst (setCurrentUser w) = Normal tt.
Proof.
  unfold setCurrentUser. unfold_M.
  destruct (mode (localStorage w)); try done;
    by destruct (items (localStorage w) !! "goodbite_user") as [[| |l|[p|]]|].
Qed.

Lemma boot_wf storage : wf (boot storage).
Proof.
  unfold boot, new_OrderService.
  unfold bind at 1, assign_orders, bind at 1, alloc_array, modify at 1.
  unfold bind at 1, modify at 1. unfold bind at 1.
  destruct (setCurrentUser _) as [[[]|e] w1] eqn:Hs.
  - apply wf_loadOrders.
  - pose proof (setCurrentUser_normal
      (set_currentUserPhone ""
         (set_orders (length (arrays (page storage)))
            (set_arrays (arrays (page storage) ++ [[]]) (page storage))))) as H.
    by rewrite Hs in H.
Qed.

(** Every world the application can reach is well formed. *)
Lemma reachable_wf w : reachable w → wf w.
Proof.
  induction 1 as [storage|w c _ IH Hp]; [apply boot_wf|by apply exec_wf].
Qed.

(** ** The collection under each call *)

Lemma snapshot_loadOrders w :
  snapshot (snd (loadOrders w))
  = persisted_orders (currentUserPhone w) (localStorage w).
Proof.
  rewrite loadOrders_eq. unfold persisted_orders. simpl.
  case_bool_decide; [apply snapshot_emptied|].
  destruct (mode (localStorage w)); try apply snapshot_emptied;
    destruct (items (localStorage w) !! storage_key (currentUserPhone w))
      as [[| |l|p]|];
    try apply snapshot_emptied; apply snapshot_filled.
Qed.

Lemma snapshot_saveOrders w : snapshot (snd (saveOrders w)) = snapshot w.
Proof.
  destruct (saveOrders_frame w) as (Ho & Ha & Hr & _).
  by destruct (same_heap w (snd (saveOrders w))) as (_ & -> & _).
Qed.

Lemma snapshot_alloc_array l w :
  wf w → snapshot (set_arrays (arrays w ++ [l]) w) = snapshot w.
Proof. intros [Hr _]. unfold snapshot. by rewrite contents_alloc. Qed.

Lemma sublist_omap {A B} (f : A → option B) (l1 l2 : list A) :
  l1 `sublist_of` l2 → omap f l1 `sublist_of` omap f l2.
Proof.
  induction 1 as [|x l1 l2 _ IH|x l1 l2 _ IH]; simpl.
  - constructor.
  - destruct (f x); [by constructor|done].
  - destruct (f x); [by constructor|done].
Qed.

Lemma ids_insert (h : list Order) (c : list nat) l o o' :
  h !! l = Some o → id o' = id o →
  map id (omap (fun l' => <[l := o']> h !! l') c) = map id (omap (fun l' => h !! l') c).
Proof.
  intros Hl Hid. induction c as [|l' c IH]; simpl; [done|].
  destruct (decide (l = l')) as [<-|Hne].
  - rewrite list_lookup_insert_eq by (by apply lookup_lt_Some with o).
    rewrite Hl. simpl. f_equal; [done|apply IH].
  - rewrite list_lookup_insert_ne by done.
    destruct (h !! l'); simpl; [f_equal|]; apply IH.
Qed.

Lemma ids_update_object l f w :
  (∀ o, id (f o) = id o) → ids (update_object l f w) = ids w.
Proof.
  intros Hf. unfold update_object. destruct (deref w l) as [o|] eqn:Hl; [|done].
  unfold ids, snapshot, contents, read_array, deref. simpl.
  by apply ids_insert with o.
Qed.

Lemma id_markAsPicked o : id (markAsPicked o) = id o.
Proof. unfold markAsPicked. by destruct (isPending o). Qed.

Lemma id_markAsExpired o : id (markAsExpired o) = id o.
Proof. unfold markAsExpired. by destruct (isPending o). Qed.

Lemma ids_saveOrders w : ids (snd (saveOrders w)) = ids w.
Proof. unfold ids. by rewrite snapshot_saveOrders. Qed.

Lemma exec_collection_effect c w :
  wf w → permitted w c → collection_effect c w (exec c w).
Proof.
  intros Hw Hp. destruct c; unfold exec, invoke, fmapM, bind; simpl; try done.
  - pose proof (snapshot_switchUser userPhone w) as H.
    rewrite switchUser_eq, loadOrders_eq in *. done.
  - apply (snapshot_emptied (set_currentUserPhone "" w)).
  - rewrite createOrder_eq. simpl.
    by rewrite snapshot_saveOrders, snapshot_pushed.
  - by apply snapshot_alloc_array.
  - unfold refreshOrders. pose proof (snapshot_loadOrders w) as H.
    rewrite loadOrders_eq in *. done.
  - by apply snapshot_alloc_array.
  - by apply snapshot_alloc_array.
  - by apply snapshot_alloc_array.
  - rewrite markOrderAsPicked_eq.
    destruct (List.find _ _) as [l|]; [|done].
    destruct (test_object w isPending l); [|done]. simpl.
    rewrite ids_saveOrders. apply ids_update_object, id_markAsPicked.
  - rewrite markOrderAsExpired_eq.
    destruct (List.find _ _) as [l|]; [|done].
    destruct (test_object w isPending l); [|done]. simpl.
    rewrite ids_saveOrders. apply ids_update_object, id_markAsExpired.
  - rewrite deleteOrder_eq.
    destruct (findIndex _ _) as [n|]; [|done]. simpl.
    rewrite snapshot_saveOrders. unfold snapshot at 1, spliced.
    rewrite contents_write_array by apply Hw.
    apply sublist_omap, sublist_delete.
  - rewrite clearAllOrders_eq. case_bool_decide; [apply snapshot_emptied|].
    destruct (mode (localStorage w)); simpl; apply snapshot_emptied.
  - unfold snapshot. by rewrite contents_caller_write.
  - apply ids_update_object, id_markAsPicked.
  - apply ids_update_object, id_markAsExpired.
Qed.

(** ** Ids in the collection *)

(** C9, as the code has it: the collection keeps insertion order
    ([createOrder] appends at the end, [deleteOrder] keeps the remaining
    orders in their order, status changes keep every order in place).  No
    call but [createOrder] and the loads can introduce a duplicate id:
    uniqueness of ids is preserved by every call, provided [createOrder] is
    given an id not yet in the collection and a loaded slot holds no id
    twice. *)
Theorem unique_ids_preserved_when_fresh (w : World) (c : Call) :
  wf w →
  permitted w c →
  collection_effect c w (exec c w) ∧
  (NoDup (ids w) → admissible w c → NoDup (ids (exec c w))).
Proof.
  intros Hw Hp. pose proof (exec_collection_effect c w Hw Hp) as He.
  split; [done|]. intros Hnd Ha.
  destruct c; red in He; red in Ha; unfold ids in *; rewrite ?He; try done.
  - apply NoDup_nil_2.
  - rewrite map_app. apply NoDup_app. split; [done|]. split.
    + intros x Hx Hx'. simpl in Hx'. apply list_elem_of_singleton in Hx'. by subst.
    + apply NoDup_singleton.
  - apply sublist_NoDup with (map id (snapshot w)); [done|].
    by apply (fmap_sublist id).
  - apply NoDup_nil_2.
Qed.

Lemma unique_ids_preserved_when_fresh_witness :
  collection_effect (call_createOrder es_teh) one_order
    (exec (call_createOrder es_teh) one_order) ∧
  NoDup (ids (exec (call_createOrder es_teh) one_order)).
Proof.
  destruct (unique_ids_preserved_when_fresh one_order (call_createOrder es_teh))
    as [He Hn].
  - split; [vm_compute; lia|]. vm_compute. repeat constructor.
  - exact I.
  - split; [exact He|]. apply Hn.
    + vm_compute. apply NoDup_singleton.
    + vm_compute. intros H. apply list_elem_of_singleton in H. discriminate H.
Defined.

(** C9, as stated, fails: [createOrder] appends whatever id it is given, so
    creating an order with the data of an order already in the collection
    leaves two orders with one id. *)
Lemma create_same_id_duplicates :
  reachable one_order ∧
  reachable (exec (call_createOrder nasi_goreng) one_order) ∧
  NoDup (ids one_order) ∧
  ids (exec (call_createOrder nasi_goreng) one_order) = ["A1"; "A1"] ∧
  ¬ NoDup (ids (exec (call_createOrder nasi_goreng) one_order)).
Proof.
  assert (Hr : reachable one_order)
    by (apply reachable_run; [apply reachable_boot | reflexivity]).
  split; [done|]. split; [by apply reachable_step|].
  split; [vm_compute; apply NoDup_singleton|].
  split; [vm_compute; reflexivity|].
  vm_compute. intros H. apply NoDup_cons in H as [H _]. apply H.
  apply list_elem_of_singleton. reflexivity.
Qed.

(** * Further properties of the store *)

(** ** Which calls can throw *)

Lemma invoke_normal c w :
  c ≠ call_clearAllOrders → ∃ v, fst (invoke c w) = Normal v.
Proof.
  intros Hc. destruct c; try done; unfold invoke, fmapM, bind; try (by eexists).
  - rewrite switchUser_eq, loadOrders_eq. by eexists.
  - rewrite createOrder_eq. by eexists.
  - unfold refreshOrders. rewrite loadOrders_eq. by eexists.
  - rewrite markOrderAsPicked_eq.
    destruct (List.find _ _) as [l|]; [|by eexists].
    destruct (test_object w isPending l); by eexists.
  - rewrite markOrderAsExpired_eq.
    destruct (List.find _ _) as [l|]; [|by eexists].
    destruct (test_object w isPending l); by eexists.
  - rewrite deleteOrder_eq. destruct (findIndex _ _) as [n|]; by eexists.
Qed.

(** X1: every call but [clearAllOrders()] returns normally in every world:
    each storage access of the other methods sits in a [try].
    [clearAllOrders()] removes the slot outside any [try]: it throws exactly
    when a user is bound and [localStorage] refuses access, and even then it
    has already emptied the in-memory collection. *)
Theorem only_clearAllOrders_can_throw (w : World) (c : Call) :
  (c ≠ call_clearAllOrders → ∃ v, fst (invoke c w) = Normal v) ∧
  (fst (clearAllOrders w) = Throw SecurityError ↔
   currentUserPhone w ≠ "" ∧ mode (localStorage w) = AccessDenied) ∧
  (fst (clearAllOrders w) = Throw SecurityError ∨ fst (clearAllOrders w) = Normal tt) ∧
  snapshot (snd (clearAllOrders w)) = [].
Proof.
  split; [apply invoke_normal|].
  rewrite clearAllOrders_eq. case_bool_decide as Hu.
  - split; [split; [done|by intros [? _]]|]. split; [by right|].
    apply snapshot_emptied.
  - destruct (mode (localStorage w)) eqn:Hm; simpl.
    + split; [split; [done|by intros [_ ?]]|]. split; [by right|].
      apply snapshot_emptied.
    + split; [split; [done|by intros [_ ?]]|]. split; [by right|].
      apply snapshot_emptied.
    + split; [done|]. split; [by left|]. apply snapshot_emptied.
Qed.

Lemma only_clearAllOrders_can_throw_witness :
  (∃ v, fst (invoke (call_createOrder es_teh) denied_storage_user) = Normal v) ∧
  fst (clearAllOrders denied_storage_user) = Throw SecurityError.
Proof.
  destruct (only_clearAllOrders_can_throw denied_storage_user (call_createOrder es_teh))
    as (Hn & Ht & _).
  split; [by apply Hn|]. apply Ht. split; [discriminate|reflexivity].
Defined.

(** ** Which slots are written *)

Lemma storage_key_not_user u : "goodbite_user" ≠ storage_key u.
Proof. unfold storage_key, STORAGE_KEY_PREFIX. simpl. discriminate. Qed.

Lemma exec_rebinding_storage c w :
  keeps_binding c = false → localStorage (exec c w) = localStorage w.
Proof.
  intros Hc. destruct c; try discriminate Hc; unfold exec, invoke, fmapM, bind.
  - destruct (loadOrders_storage (set_currentUserPhone userPhone w)) as [Hs _].
    rewrite switchUser_eq. rewrite loadOrders_eq in *. done.
  - done.
Qed.

Lemma exec_user_record c w :
  items (localStorage (exec c w)) !! "goodbite_user"
  = items (localStorage w) !! "goodbite_user".
Proof.
  destruct (keeps_binding c) eqn:Hc.
  - destruct (exec_storage_frame c w Hc) as (_ & _ & Hk).
    apply Hk, storage_key_not_user.
  - by rewrite exec_rebinding_storage.
Qed.

(** X2: no call, and no sequence of calls, ever writes or removes the session
    record under the key goodbite_user: the store only writes keys that start
    with goodbite_orders_.  So the user the constructor would bind stays the
    same whatever the store does. *)
Theorem session_record_never_written (w : World) (cs : list Call) :
  items (localStorage (run cs w)) !! "goodbite_user"
  = items (localStorage w) !! "goodbite_user" ∧
  mode (localStorage (run cs w)) = mode (localStorage w) ∧
  recorded_phone (localStorage (run cs w)) = recorded_phone (localStorage w).
Proof.
  assert (H : items (localStorage (run cs w)) !! "goodbite_user"
              = items (localStorage w) !! "goodbite_user" ∧
              mode (localStorage (run cs w)) = mode (localStorage w)).
  { revert w. induction cs as [|c cs IH]; intros w; simpl; [done|].
    destruct (IH (exec c w)) as [-> ->]. split; [apply exec_user_record|].
    destruct (keeps_binding c) eqn:Hc.
    - by destruct (exec_storage_frame c w Hc) as (_ & Hm & _).
    - by rewrite exec_rebinding_storage. }
  destruct H as [Hi Hm]. unfold recorded_phone. by rewrite Hi, Hm.
Qed.

(** ** Queries only read *)

Lemma exec_query c w :
  is_query c = true →
  exec c w = w ∨ ∃ l, exec c w = set_arrays (arrays w ++ [l]) w.
Proof.
  intros Hc. destruct c; try discriminate Hc; unfold exec, invoke, fmapM, bind;
    simpl; try (by left); right; by eexists.
Qed.

(** X3: the query methods ([getOrderById], [getAllOrders],
    [getOrdersByStatus], [getPendingOrders], [getPickedOrders],
    [getTotalOrdersCount], [getTotalRevenue], [orderExists]) only read: they
    leave the collection, every [Order] object, [localStorage], the console
    and the active user as they were, so a query never changes what a later
    [getAllOrders()] or [getTotalRevenue()] answers. *)
Theorem queries_only_read (w : World) (c : Call) :
  wf w →
  is_query c = true →
  contents (exec c w) = contents w ∧
  objects (exec c w) = objects w ∧
  localStorage (exec c w) = localStorage w ∧
  console (exec c w) = console w ∧
  currentUserPhone (exec c w) = currentUserPhone w ∧
  listAll (exec c w) = listAll w ∧
  fst (getTotalRevenue (exec c w)) = fst (getTotalRevenue w).
Proof.
  intros Hw Hc.
  assert (Hcont : contents (exec c w) = contents w ∧ objects (exec c w) = objects w
                  ∧ localStorage (exec c w) = localStorage w
                  ∧ console (exec c w) = console w
                  ∧ currentUserPhone (exec c w) = currentUserPhone w).
  { destruct (exec_query c w Hc) as [-> | [l ->]]; [done|].
    repeat split. apply contents_alloc, Hw. }
  destruct Hcont as (H1 & H2 & H3 & H4 & H5).
  repeat split; try done.
  - rewrite !listAll_snapshot. unfold snapshot, deref. by rewrite H1, H2.
  - unfold getTotalRevenue, gets. simpl. rewrite !fold_add_price.
    unfold deref. by rewrite H1, H2.
Qed.

Lemma queries_only_read_witness :
  contents (exec (call_getOrdersByStatus pending) returning_user)
  = contents returning_user ∧
  objects (exec (call_getOrdersByStatus pending) returning_user)
  = objects returning_user ∧
  localStorage (exec (call_getOrdersByStatus pending) returning_user)
  = localStorage returning_user ∧
  console (exec (call_getOrdersByStatus pending) returning_user)
  = console returning_user ∧
  currentUserPhone (exec (call_getOrdersByStatus pending) returning_user)
  = currentUserPhone returning_user ∧
  listAll (exec (call_getOrdersByStatus pending) returning_user)
  = listAll returning_user ∧
  fst (getTotalRevenue (exec (call_getOrdersByStatus pending) returning_user))
  = fst (getTotalRevenue returning_user).
Proof.
  apply (queries_only_read returning_user (call_getOrdersByStatus pending)).
  - split; [vm_compute; lia|]. vm_compute. repeat constructor.
  - reflexivity.
Defined.

(** ** Construction and sessions *)

Lemma setCurrentUser_eq w :
  currentUserPhone w = "" →
  currentUserPhone (snd (setCurrentUser w)) = recorded_phone (localStorage w) ∧
  localStorage (snd (setCurrentUser w)) = localStorage w.
Proof.
  intros Hu. unfold setCurrentUser, recorded_phone. unfold_M.
  destruct (mode (localStorage w)); try done;
    by destruct (items (localStorage w) !! "goodbite_user") as [[| |l|[p|]]|].
Qed.

Lemma boot_eq storage :
  boot storage
  = snd (loadOrders (snd (setCurrentUser
           (set_currentUserPhone "" (emptied (page storage)))))).
Proof.
  unfold boot, new_OrderService.
  unfold bind at 1, assign_orders, bind at 1, alloc_array, modify at 1.
  unfold bind at 1, modify at 1. unfold bind at 1.
  pose proof (setCurrentUser_normal
                (set_currentUserPhone "" (emptied (page storage)))) as Hn.
  unfold emptied in *. simpl in *.
  by destruct (setCurrentUser _) as [[[]|e] w1].
Qed.

(** X4: the constructor binds the store to the phone of the session record
    and loads that user's persisted orders, without writing to
    [localStorage] and without throwing; when the record is missing,
    unreadable, not JSON or without a phone, the store starts unbound and
    empty. *)
Theorem constructor_binds_recorded_user (storage : LocalStorage) :
  fst (new_OrderService (page storage)) = Normal tt ∧
  currentUserPhone (boot storage) = recorded_phone storage ∧
  snapshot (boot storage) = persisted_orders (recorded_phone storage) storage ∧
  localStorage (boot storage) = storage ∧
  (recorded_phone storage = "" → snapshot (boot storage) = []).
Proof.
  pose proof (boot_eq storage) as Hb.
  set (w0 := set_currentUserPhone "" (emptied (page storage))) in *.
  destruct (setCurrentUser_eq w0 eq_refl) as [Hu Hs].
  destruct (loadOrders_storage (snd (setCurrentUser w0))) as [Hs' Hu'].
  assert (Hphone : currentUserPhone (boot storage) = recorded_phone storage)
    by (rewrite Hb, Hu', Hu; done).
  assert (Hstore : localStorage (boot storage) = storage)
    by (rewrite Hb, Hs', Hs; done).
  assert (Hsnap : snapshot (boot storage)
                  = persisted_orders (recorded_phone storage) storage).
  { rewrite Hb, snapshot_loadOrders, Hu, Hs. done. }
  split.
  { unfold new_OrderService.
    unfold bind at 1, assign_orders, bind at 1, alloc_array, modify at 1.
    unfold bind at 1, modify at 1. unfold bind at 1.
    pose proof (setCurrentUser_normal w0) as Hn. unfold w0, emptied in Hn.
    simpl in *. destruct (setCurrentUser _) as [[[]|e] w1]; [|done].
    apply loadOrders_normal. }
  repeat split; try done.
  intros H0. rewrite Hsnap, H0. done.
Qed.

Lemma constructor_binds_recorded_user_witness :
  currentUserPhone (boot returning_user_storage) = "0811" ∧
  snapshot (boot returning_user_storage)
  = [mkOrder "A1" picked 12.5%float "nasi goreng";
     mkOrder "A2" pending 3%float "es teh"] ∧
  snapshot (boot empty_storage) = [].
Proof.
  destruct (constructor_binds_recorded_user returning_user_storage)
    as (_ & Hu & Hs & _).
  destruct (constructor_binds_recorded_user empty_storage) as (_ & _ & _ & _ & He).
  split; [rewrite Hu; reflexivity|].
  split; [rewrite Hs; vm_compute; reflexivity|].
  apply He. reflexivity.
Defined.

(** X5: [clearUserSession()] unbinds the user and empties the in-memory
    collection but leaves [localStorage] untouched, so binding a user again
    brings back exactly what that user's slot held. *)
Theorem clearUserSession_keeps_storage (w : World) (userPhone : string) :
  fst (clearUserSession w) = Normal tt ∧
  currentUserPhone (exec call_clearUserSession w) = "" ∧
  snapshot (exec call_clearUserSession w) = [] ∧
  localStorage (exec call_clearUserSession w) = localStorage w ∧
  snapshot (exec (call_switchUser userPhone) (exec call_clearUserSession w))
  = snapshot (exec (call_switchUser userPhone) w).
Proof.
  split; [done|]. split; [done|].
  split; [apply (snapshot_emptied (set_currentUserPhone "" w))|].
  split; [done|].
  pose proof (snapshot_switchUser userPhone w) as H1.
  pose proof (snapshot_switchUser userPhone (exec call_clearUserSession w)) as H2.
  unfold exec at 1 3. unfold invoke, fmapM, bind.
  rewrite !switchUser_eq, !loadOrders_eq in *. simpl in *.
  by rewrite H1, H2.
Qed.

(** X6: what [switchUser] and [refreshOrders] load depends only on
    [localStorage] and on the user: in-memory changes that were never
    persisted are dropped, and changes made to the slot out of band are
    picked up.  When the user's slot holds a serialised array, the collection
    becomes its elements, deserialised, in the slot's order; with no user
    bound it becomes empty. *)
Theorem load_overwrites_memory (w1 w2 : World) (l : list OrderJSON) :
  (currentUserPhone w1 = currentUserPhone w2 → localStorage w1 = localStorage w2 →
   snapshot (exec call_refreshOrders w1) = snapshot (exec call_refreshOrders w2)) ∧
  (currentUserPhone w1 ≠ "" → mode (localStorage w1) ≠ AccessDenied →
   items (localStorage w1) !! storage_key (currentUserPhone w1) = Some (TextOrders l) →
   snapshot (exec call_refreshOrders w1) = map fromJSON l) ∧
  (currentUserPhone w1 = "" → snapshot (exec call_refreshOrders w1) = []) ∧
  currentUserPhone (exec call_refreshOrders w1) = currentUserPhone w1 ∧
  localStorage (exec call_refreshOrders w1) = localStorage w1.
Proof.
  assert (He : ∀ w, exec call_refreshOrders w = snd (loadOrders w)).
  { intros w. unfold exec, invoke, fmapM, bind, refreshOrders.
    by rewrite loadOrders_eq. }
  rewrite !He, !snapshot_loadOrders.
  destruct (loadOrders_storage w1) as [Hs Hu].
  split; [by intros -> ->|]. split; [|split; [|done]].
  - intros Hne Hm Hl. unfold persisted_orders.
    rewrite bool_decide_eq_false_2, Hl by done.
    by destruct (mode (localStorage w1)).
  - intros ->. done.
Qed.

Lemma load_overwrites_memory_witness :
  snapshot (exec call_refreshOrders (exec (caller_markAsPicked 1) returning_user))
  = snapshot (exec call_refreshOrders returning_user) ∧
  snapshot (exec call_refreshOrders returning_user)
  = [mkOrder "A1" picked 12.5%float "nasi goreng";
     mkOrder "A2" pending 3%float "es teh"].
Proof.
  destruct (load_overwrites_memory (exec (caller_markAsPicked 1) returning_user)
              returning_user []) as (H1 & _).
  destruct (load_overwrites_memory returning_user returning_user
              [mkOrderJSON "A1" picked 12.5%float "nasi goreng";
               mkOrderJSON "A2" pending 3%float "es teh"]) as (_ & H2 & _).
  split.
  - apply H1; reflexivity.
  - rewrite H2; [reflexivity|discriminate|discriminate|reflexivity].
Defined.

(** ** Persistence after each mutation *)

Lemma saveOrders_in_sync w :
  currentUserPhone w ≠ "" → mode (localStorage w) = Available →
  items (localStorage (snd (saveOrders w))) !! storage_key (currentUserPhone w)
  = Some (JSON_stringify (map toJSON (snapshot (snd (saveOrders w))))).
Proof.
  intros Hu Hm. rewrite snapshot_saveOrders. by apply saveOrders_persists.
Qed.

(** X7: with a user bound and a working [localStorage], every mutating
    method that succeeds ([createOrder], and [markOrderAsPicked],
    [markOrderAsExpired], [deleteOrder] when they return [true]) leaves the
    user's slot holding the serialisation of the whole in-memory collection
    as it then is; one that returns [false] changes nothing at all. *)
Theorem mutation_writes_whole_collection (w : World) (c : Call) :
  currentUserPhone w ≠ "" →
  mode (localStorage w) = Available →
  is_mutation c = true →
  (fst (invoke c w) = Normal (boolean false) ∧ exec c w = w) ∨
  (fst (invoke c w) ≠ Normal (boolean false) ∧
   items (localStorage (exec c w)) !! storage_key (currentUserPhone w)
   = Some (JSON_stringify (map toJSON (snapshot (exec c w))))).
Proof.
  intros Hu Hm Hc.
  destruct c; try discriminate Hc; unfold exec, invoke, fmapM, bind.
  - rewrite createOrder_eq. simpl. right. split; [done|].
    by apply (saveOrders_in_sync (pushed orderData w)).
  - rewrite markOrderAsPicked_eq.
    destruct (List.find _ _) as [l|]; [|by left].
    destruct (test_object w isPending l); [|by left]. simpl. right.
    split; [done|].
    destruct (update_object_frame l markAsPicked w) as (_ & _ & Hs & _ & Hp & _).
    rewrite <- Hp. apply saveOrders_in_sync; by rewrite ?Hp, ?Hs.
  - rewrite markOrderAsExpired_eq.
    destruct (List.find _ _) as [l|]; [|by left].
    destruct (test_object w isPending l); [|by left]. simpl. right.
    split; [done|].
    destruct (update_object_frame l markAsExpired w) as (_ & _ & Hs & _ & Hp & _).
    rewrite <- Hp. apply saveOrders_in_sync; by rewrite ?Hp, ?Hs.
  - rewrite deleteOrder_eq.
    destruct (findIndex _ _) as [n|]; [|by left]. simpl. right.
    split; [done|]. by apply (saveOrders_in_sync (spliced n w)).
Qed.

Lemma mutation_writes_whole_collection_witness :
  (fst (invoke (call_markOrderAsPicked "A2") returning_user) = Normal (boolean false) ∧
   exec (call_markOrderAsPicked "A2") returning_user = returning_user) ∨
  (fst (invoke (call_markOrderAsPicked "A2") returning_user) ≠ Normal (boolean false) ∧
   items (localStorage (exec (call_markOrderAsPicked "A2") returning_user))
     !! storage_key (currentUserPhone returning_user)
   = Some (JSON_stringify
             (map toJSON (snapshot (exec (call_markOrderAsPicked "A2") returning_user))))).
Proof.
  apply (mutation_writes_whole_collection returning_user (call_markOrderAsPicked "A2")).
  - discriminate.
  - reflexivity.
  - reflexivity.
Defined.

(** X8: when a user is bound but [localStorage] refuses the write,
    [createOrder] still returns the new order and keeps it in memory;
    nothing is thrown, [localStorage] is unchanged and the failure is logged
    as "Error saving orders:".  Memory and storage then differ: a reload
    brings back the collection without the new order. *)
Theorem createOrder_survives_write_failure (w : World) (data : OrderData) :
  wf w →
  currentUserPhone w ≠ "" →
  mode (localStorage w) ≠ Available →
  ∃ e w',
    createOrder data w = (Normal (length (objects w)), w') ∧
    snapshot w' = snapshot w ++ [new_Order data] ∧
    localStorage w' = localStorage w ∧
    console w' = console w ++ [("Error saving orders:", Some e)] ∧
    snapshot (exec call_refreshOrders w')
    = persisted_orders (currentUserPhone w) (localStorage w).
Proof.
  intros Hw Hu Hm. rewrite createOrder_eq, saveOrders_eq.
  rewrite bool_decide_eq_false_2 by done.
  assert (He : ∀ w, exec call_refreshOrders w = snd (loadOrders w)).
  { intros w0. unfold exec, invoke, fmapM, bind, refreshOrders.
    by rewrite loadOrders_eq. }
  change (mode (localStorage (pushed data w))) with (mode (localStorage w)).
  destruct (mode (localStorage w)) eqn:Hmode; [done| |].
  - exists QuotaExceededError. eexists. split; [done|]. simpl.
    split; [by apply snapshot_pushed|]. split; [done|]. split; [done|].
    by rewrite He, snapshot_loadOrders.
  - exists SecurityError. eexists. split; [done|]. simpl.
    split; [by apply snapshot_pushed|]. split; [done|]. split; [done|].
    by rewrite He, snapshot_loadOrders.
Qed.

Lemma createOrder_survives_write_failure_witness :
  ∃ e w',
    createOrder nasi_goreng full_storage_user
    = (Normal (length (objects full_storage_user)), w') ∧
    snapshot w' = snapshot full_storage_user ++ [new_Order nasi_goreng] ∧
    localStorage w' = localStorage full_storage_user ∧
    console w' = console full_storage_user ++ [("Error saving orders:", Some e)] ∧
    snapshot (exec call_refreshOrders w')
    = persisted_orders (currentUserPhone full_storage_user)
        (localStorage full_storage_user).
Proof.
  apply (createOrder_survives_write_failure full_storage_user nasi_goreng).
  - split; [vm_compute; lia|]. vm_compute. repeat constructor.
  - discriminate.
  - discriminate.
Defined.

(** X9: [clearAllOrders()], when it returns: the in-memory collection is
    empty; with a user bound that user's slot is removed and every other slot
    is kept, so a reload stays empty; with no user bound [localStorage] is
    not touched. *)
Theorem clearAllOrders_removes_own_slot (w : World) :
  fst (clearAllOrders w) = Normal tt →
  snapshot (exec call_clearAllOrders w) = [] ∧
  currentUserPhone (exec call_clearAllOrders w) = currentUserPhone w ∧
  (currentUserPhone w ≠ "" →
   items (localStorage (exec call_clearAllOrders w))
     !! storage_key (currentUserPhone w) = None ∧
   snapshot (exec call_refreshOrders (exec call_clearAllOrders w)) = []) ∧
  (∀ k, k ≠ storage_key (currentUserPhone w) →
        items (localStorage (exec call_clearAllOrders w)) !! k
        = items (localStorage w) !! k) ∧
  (currentUserPhone w = "" →
   localStorage (exec call_clearAllOrders w) = localStorage w).
Proof.
  intros Hn.
  assert (He : ∀ w, exec call_refreshOrders w = snd (loadOrders w)).
  { intros w0. unfold exec, invoke, fmapM, bind, refreshOrders.
    by rewrite loadOrders_eq. }
  rewrite He, snapshot_loadOrders.
  unfold exec, invoke, fmapM, bind.
  rewrite clearAllOrders_eq in *.
  case_bool_decide as Hu; simpl in *.
  - split; [apply snapshot_emptied|]. by repeat split.
  - destruct (mode (localStorage w)) eqn:Hm; simpl in *; try done.
    + split; [apply snapshot_emptied|]. split; [done|].
      split; [|split; [|done]].
      * intros _. split; [apply lookup_delete_eq|].
        unfold persisted_orders. simpl.
        rewrite bool_decide_eq_false_2 by done. by rewrite lookup_delete_eq.
      * intros k Hk. by rewrite lookup_delete_ne.
    + split; [apply snapshot_emptied|]. split; [done|].
      split; [|split; [|done]].
      * intros _. split; [apply lookup_delete_eq|].
        unfold persisted_orders. simpl.
        rewrite bool_decide_eq_false_2 by done. by rewrite lookup_delete_eq.
      * intros k Hk. by rewrite lookup_delete_ne.
Qed.

Lemma clearAllOrders_removes_own_slot_witness :
  snapshot (exec call_clearAllOrders returning_user) = [] ∧
  items (localStorage (exec call_clearAllOrders returning_user))
    !! "goodbite_orders_0811" = None ∧
  items (localStorage (exec call_clearAllOrders returning_user))
    !! "goodbite_orders_0822" = Some TextMalformed.
Proof.
  destruct (clearAllOrders_removes_own_slot returning_user eq_refl)
    as (H1 & _ & H2 & H3 & _).
  split; [exact H1|]. split.
  - apply H2. discriminate.
  - rewrite (H3 "goodbite_orders_0822"); [reflexivity|discriminate].
Defined.

(** ** Counting and existence *)

Lemma count_of_length w : count_of w = length (contents w).
Proof. reflexivity. Qed.

Lemma length_snapshot w : wf w → length (snapshot w) = length (contents w).
Proof.
  intros [_ Hc]. unfold snapshot. induction Hc as [|l c Hl _ IH]; [done|].
  apply lookup_lt_is_Some in Hl as [o Ho].
  change (omap (deref w) (l :: c))
    with (match deref w l with
          | Some y => y :: omap (deref w) c
          | None => omap (deref w) c
          end).
  unfold deref at 1. rewrite Ho. simpl. by rewrite IH.
Qed.

Lemma contents_saveOrders w : contents (snd (saveOrders w)) = contents w.
Proof.
  destruct (saveOrders_frame w) as (Ho & Ha & Hr & _).
  by destruct (same_heap w (snd (saveOrders w))) as (-> & _).
Qed.

Lemma contents_update_object l f w : contents (update_object l f w) = contents w.
Proof.
  destruct (update_object_frame l f w) as (Ha & Hr & _).
  unfold contents, read_array. by rewrite Ha, Hr.
Qed.

Lemma existsb_findIndex {A} (f : A → bool) (c : list A) :
  existsb f c = match findIndex f c with Some _ => true | None => false end.
Proof.
  induction c as [|a c IH]; simpl; [done|].
  destruct (f a); simpl; [done|]. rewrite IH. by destruct (findIndex f c).
Qed.

Lemma existsb_find {A} (f : A → bool) (c : list A) :
  existsb f c = match List.find f c with Some _ => true | None => false end.
Proof.
  induction c as [|a c IH]; simpl; [done|]. by destruct (f a).
Qed.

(** X10: [getTotalOrdersCount()] is the length of what [getAllOrders()]
    returns.  [createOrder] raises it by one, a [deleteOrder] that returns
    [true] lowers it by one and one that returns [false] leaves it, the two
    status transitions leave it, and [clearAllOrders] and
    [clearUserSession] bring it to 0. *)
Theorem count_follows_mutations (w : World) :
  wf w →
  fst (getTotalOrdersCount w) = Normal (length (listAll w)) ∧
  (∀ d, count_of (exec (call_createOrder d) w) = S (count_of w)) ∧
  (∀ i, fst (deleteOrder i w) = Normal true →
        S (count_of (exec (call_deleteOrder i) w)) = count_of w) ∧
  (∀ i, fst (deleteOrder i w) = Normal false →
        count_of (exec (call_deleteOrder i) w) = count_of w) ∧
  (∀ i, count_of (exec (call_markOrderAsPicked i) w) = count_of w ∧
        count_of (exec (call_markOrderAsExpired i) w) = count_of w) ∧
  count_of (exec call_clearAllOrders w) = 0 ∧
  count_of (exec call_clearUserSession w) = 0.
Proof.
  intros Hw. rewrite ?count_of_length.
  split.
  { rewrite listAll_snapshot, length_snapshot by done. done. }
  split.
  { intros d. rewrite ?count_of_length. unfold exec, invoke, fmapM, bind.
    rewrite createOrder_eq. simpl.
    rewrite contents_saveOrders, contents_pushed by apply Hw.
    rewrite length_app. simpl. lia. }
  split.
  { intros i. rewrite ?count_of_length. unfold exec, invoke, fmapM, bind.
    rewrite deleteOrder_eq.
    destruct (findIndex _ _) as [n|] eqn:Hf; [|done]. intros _. simpl.
    destruct (findIndex_split _ _ _ Hf) as (c1 & x & c2 & Hc & Hn & _).
    rewrite contents_saveOrders. unfold spliced.
    rewrite contents_write_array by apply Hw.
    rewrite Hc, <- Hn, delete_middle, !length_app. simpl. lia. }
  split.
  { intros i. rewrite ?count_of_length. unfold exec, invoke, fmapM, bind.
    rewrite deleteOrder_eq. by destruct (findIndex _ _). }
  split.
  { intros i. rewrite ?count_of_length. unfold exec, invoke, fmapM, bind.
    rewrite markOrderAsPicked_eq, markOrderAsExpired_eq.
    destruct (List.find _ _) as [l|]; [|done].
    destruct (test_object w isPending l); [|done]. simpl.
    by rewrite !contents_saveOrders, !contents_update_object. }
  split.
  { rewrite ?count_of_length. unfold exec, invoke, fmapM, bind.
    rewrite clearAllOrders_eq. case_bool_decide; simpl.
    - by rewrite contents_emptied.
    - destruct (mode (localStorage w));
        exact (f_equal length (contents_emptied w)). }
  rewrite ?count_of_length.
  exact (f_equal length (contents_emptied (set_currentUserPhone "" w))).
Qed.

Lemma count_follows_mutations_witness :
  fst (getTotalOrdersCount returning_user) = Normal (length (listAll returning_user)) ∧
  count_of (exec (call_createOrder nasi_goreng) returning_user) = 3 ∧
  count_of (exec (call_deleteOrder "A2") returning_user) = 1.
Proof.
  destruct (count_follows_mutations returning_user) as (H1 & H2 & H3 & _).
  - split; [vm_compute; lia|]. vm_compute. repeat constructor.
  - split; [exact H1|]. split.
    + rewrite H2. reflexivity.
    + apply Nat.succ_inj. rewrite H3; reflexivity.
Defined.

(** X11: [orderExists(id)] is [true] exactly when the collection holds an
    order with that id, which is exactly when [getOrderById(id)] returns an
    order and exactly when [deleteOrder(id)] would return [true]; it changes
    nothing. *)
Theorem orderExists_agrees (w : World) (orderId : string) :
  ∃ b,
    orderExists orderId w = (Normal b, w) ∧
    (b = true ↔ ∃ o, o ∈ snapshot w ∧ id o = orderId) ∧
    (b = true ↔ ∃ l, fst (getOrderById orderId w) = Normal (Some l)) ∧
    fst (deleteOrder orderId w) = Normal b.
Proof.
  exists (existsb (test_object w (has_id orderId)) (contents w)).
  split; [done|]. split; [|split].
  - rewrite existsb_find.
    destruct (List.find _ _) as [l|] eqn:Hf.
    + split; [|done]. intros _.
      destruct (find_test_object _ _ _ _ Hf) as (Hin & o & Ho & Hid).
      exists o. split.
      * apply list_elem_of_omap. by exists l.
      * unfold has_id in Hid. by apply bool_decide_eq_true in Hid.
    + split; [done|]. intros (o & Ho & Hid).
      apply list_elem_of_omap in Ho as (l & Hin & Hl).
      pose proof (find_test_object_none _ _ _ _ _ Hf Hin Hl) as Hfalse.
      unfold has_id in Hfalse. by apply bool_decide_eq_false in Hfalse.
  - rewrite existsb_find. unfold getOrderById, gets. simpl.
    destruct (List.find _ _) as [l|].
    + split; [by exists l|done].
    + split; [done|]. by intros [l Hl].
  - rewrite deleteOrder_eq, existsb_findIndex. by destruct (findIndex _ _).
Qed.

(** ** Orders by status *)

Lemma filter_sublist {A} (f : A → bool) (l : list A) :
  List.filter f l `sublist_of` l.
Proof.
  induction l as [|a l IH]; simpl; [apply sublist_nil|].
  destruct (f a); [by apply sublist_skip | by apply sublist_cons].
Qed.

Lemma filter_status_lengths (l : list Order) :
  length (List.filter (has_status pending) l)
  + length (List.filter (has_status picked) l)
  + length (List.filter (has_status expired) l) = length l.
Proof.
  induction l as [|o l IH]; simpl; [done|].
  change (has_status pending o) with (bool_decide (status o = pending)).
  change (has_status picked o) with (bool_decide (status o = picked)).
  change (has_status expired o) with (bool_decide (status o = expired)).
  destruct (status o); simpl; lia.
Qed.

Lemma returned_by_status w s :
  returned_orders (getOrdersByStatus s) w = List.filter (has_status s) (snapshot w).
Proof.
  unfold returned_orders, getOrdersByStatus, bind, gets, alloc_array. simpl.
  unfold array_values. rewrite read_array_fresh. by apply omap_filter_test.
Qed.

(** X12: [getOrdersByStatus(status)] returns the orders of the collection
    that have that status and no others, in their relative order; and the
    three statuses split the collection: the lengths of the pending, picked
    and expired lists add up to [getTotalOrdersCount()]. *)
Theorem getOrdersByStatus_partitions (w : World) :
  wf w →
  (∀ s, returned_orders (getOrdersByStatus s) w `sublist_of` listAll w) ∧
  (∀ s o, o ∈ returned_orders (getOrdersByStatus s) w ↔
          o ∈ listAll w ∧ status o = s) ∧
  length (returned_orders (getOrdersByStatus pending) w)
  + length (returned_orders (getOrdersByStatus picked) w)
  + length (returned_orders (getOrdersByStatus expired) w)
  = count_of w.
Proof.
  intros Hw. rewrite listAll_snapshot. split; [|split].
  - intros s. rewrite returned_by_status. apply filter_sublist.
  - intros s o. rewrite returned_by_status, !list_elem_of_In, List.filter_In.
    unfold has_status. by rewrite bool_decide_eq_true.
  - rewrite !returned_by_status, filter_status_lengths, count_of_length.
    by apply length_snapshot.
Qed.

Lemma getOrdersByStatus_partitions_witness :
  (∀ s, returned_orders (getOrdersByStatus s) returning_user
        `sublist_of` listAll returning_user) ∧
  (∀ s o, o ∈ returned_orders (getOrdersByStatus s) returning_user ↔
          o ∈ listAll returning_user ∧ status o = s) ∧
  length (returned_orders (getOrdersByStatus pending) returning_user)
  + length (returned_orders (getOrdersByStatus picked) returning_user)
  + length (returned_orders (getOrdersByStatus expired) returning_user)
  = count_of returning_user.
Proof.
  apply (getOrdersByStatus_partitions returning_user).
  split; [vm_compute; lia|]. vm_compute. repeat constructor.
Defined.

(** ** Creating, then finding *)

Lemma test_object_pushed d w f l :
  l < length (objects w) → test_object (pushed d w) f l = test_object w f l.
Proof.
  intros Hl. unfold test_object, deref, pushed. simpl. by rewrite lookup_app_l.
Qed.

Lemma deref_pushed_new d w :
  deref (pushed d w) (length (objects w)) = Some (new_Order d).
Proof. unfold deref, pushed. simpl. by rewrite list_lookup_middle. Qed.

(** X13: after [createOrder(data)], [orderExists(data.id)] is [true] and
    [getOrderById(data.id)] returns an order with that id; when the id was
    not in the collection before, it is the order just created, with the
    data's price and payload and status pending. *)
Theorem createOrder_then_getOrderById (w : World) (data : OrderData) :
  wf w →
  fst (orderExists (data_id data) (exec (call_createOrder data) w)) = Normal true ∧
  (∃ l o, fst (getOrderById (data_id data) (exec (call_createOrder data) w))
          = Normal (Some l) ∧
          deref (exec (call_createOrder data) w) l = Some o ∧
          id o = data_id data) ∧
  (data_id data ∉ ids w →
   fst (getOrderById (data_id data) (exec (call_createOrder data) w))
   = Normal (Some (length (objects w))) ∧
   deref (exec (call_createOrder data) w) (length (objects w))
   = Some (new_Order data)).
Proof.
  intros Hw.
  assert (He : exec (call_createOrder data) w = snd (saveOrders (pushed data w))).
  { unfold exec, invoke, fmapM, bind. by rewrite createOrder_eq. }
  rewrite He.
  destruct (saveOrders_frame (pushed data w)) as (Ho & _).
  set (f := has_id (data_id data)).
  assert (Hnew : test_object (pushed data w) f (length (objects w)) = true).
  { unfold test_object. rewrite deref_pushed_new. unfold f, has_id. simpl.
    by apply bool_decide_eq_true. }
  assert (Hfind : List.find (test_object (snd (saveOrders (pushed data w))) f)
                    (contents (snd (saveOrders (pushed data w))))
                  = List.find (test_object (pushed data w) f)
                      (contents w ++ [length (objects w)])).
  { rewrite contents_saveOrders, contents_pushed by apply Hw.
    by rewrite (test_object_frame (pushed data w)). }
  assert (Hsome : ∃ l, List.find (test_object (pushed data w) f)
                         (contents w ++ [length (objects w)]) = Some l).
  { destruct (List.find (test_object (pushed data w) f) _) as [l|] eqn:Hf;
      [by exists l|].
    apply find_none_iff, Forall_app in Hf as [_ Hf].
    apply Forall_cons in Hf as [Hf _]. congruence. }
  split; [|split].
  - unfold orderExists, gets. simpl. rewrite existsb_find. fold f.
    rewrite Hfind. by destruct Hsome as [l ->].
  - destruct Hsome as [l Hl]. unfold getOrderById, gets. simpl. fold f.
    rewrite Hfind, Hl.
    destruct (find_test_object _ _ _ _ Hl) as (_ & o & Hd & Hid).
    exists l, o. split; [done|]. split.
    + unfold deref in *. by rewrite Ho.
    + unfold f, has_id in Hid. by apply bool_decide_eq_true in Hid.
  - intros Hfresh. unfold getOrderById, gets. simpl. fold f. rewrite Hfind.
    split; [|unfold deref; rewrite Ho; apply deref_pushed_new].
    rewrite find_app_fail; [simpl; by rewrite Hnew|].
    assert (Hall : Forall (fun l => test_object w f l = false) (contents w)).
    { apply Forall_test_has_id. apply Forall_forall. intros o Hin Hid.
      apply Hfresh. unfold ids. rewrite <- Hid. by apply (list_elem_of_fmap_2 id). }
    destruct Hw as [_ Hc]. rewrite Forall_forall in *.
    intros l Hl. rewrite test_object_pushed by by apply Hc. by apply Hall.
Qed.

Lemma createOrder_then_getOrderById_witness :
  fst (orderExists "A2" (exec (call_createOrder es_teh) one_order)) = Normal true ∧
  fst (getOrderById "A2" (exec (call_createOrder es_teh) one_order))
  = Normal (Some (length (objects one_order))) ∧
  deref (exec (call_createOrder es_teh) one_order) (length (objects one_order))
  = Some (new_Order es_teh).
Proof.
  destruct (createOrder_then_getOrderById one_order es_teh) as (H1 & _ & H2).
  - split; [vm_compute; lia|]. vm_compute. repeat constructor.
  - split; [exact H1|]. apply H2.
    vm_compute. intros H. apply list_elem_of_singleton in H. discriminate H.
Defined.

(** ** Status transitions are final *)

Lemma find_pointwise {A} (f g : A → bool) (l : list A) :
  (∀ x, f x = g x) → List.find f l = List.find g l.
Proof.
  intros H. induction l as [|a l IH]; simpl; [done|]. by rewrite H, IH.
Qed.

Lemma deref_update_object l f w l' :
  deref (update_object l f w) l'
  = if decide (l = l') then f <$> deref w l else deref w l'.
Proof.
  unfold update_object. destruct (deref w l) as [o|] eqn:Hl.
  - unfold deref in *. simpl. destruct (decide (l = l')) as [<-|Hne].
    + rewrite list_lookup_insert_eq by (by apply lookup_lt_Some with o).
      done.
    + by rewrite list_lookup_insert_ne.
  - destruct (decide (l = l')) as [<-|Hne]; [by rewrite Hl|done].
Qed.

Lemma test_has_id_update_object l f w i l' :
  (∀ o, id (f o) = id o) →
  test_object (update_object l f w) (has_id i) l' = test_object w (has_id i) l'.
Proof.
  intros Hf. unfold test_object. rewrite deref_update_object.
  destruct (decide (l = l')) as [<-|Hne]; [|done].
  destruct (deref w l) as [o|]; [|done]. simpl. unfold has_id. by rewrite Hf.
Qed.

Lemma transition_is_final (s : Status) (f : Order → Order) i w l :
  s ≠ pending →
  (∀ o, f o = if isPending o then with_status s o else o) →
  List.find (test_object w (has_id i)) (contents w) = Some l →
  test_object w isPending l = true →
  let w' := snd (saveOrders (update_object l f w)) in
  List.find (test_object w' (has_id i)) (contents w') = Some l ∧
  test_object w' isPending l = false.
Proof.
  intros Hs Hf Hfind Hp w'.
  destruct (saveOrders_frame (update_object l f w)) as (Ho & _).
  assert (Hid : ∀ o, id (f o) = id o)
    by (intros o; rewrite Hf; by destruct (isPending o)).
  split.
  - unfold w'. rewrite contents_saveOrders, contents_update_object.
    rewrite (test_object_frame (update_object l f w)) by done.
    rewrite <- Hfind. apply find_pointwise. intros l'.
    by apply test_has_id_update_object.
  - unfold w'. rewrite (test_object_frame (update_object l f w)) by done.
    unfold test_object in *. rewrite deref_update_object.
    rewrite decide_True by done.
    destruct (deref w l) as [o|]; [|done]. simpl. rewrite Hf, Hp.
    unfold isPending. simpl. by apply bool_decide_eq_false.
Qed.

(** X14: a status transition through the store is final: right after
    [markOrderAsPicked(id)] or [markOrderAsExpired(id)] has returned [true],
    both [markOrderAsPicked(id)] and [markOrderAsExpired(id)] return [false]
    and change nothing. *)
Theorem mark_succeeds_once (w : World) (orderId : string) (c : Call) :
  c = call_markOrderAsPicked orderId ∨ c = call_markOrderAsExpired orderId →
  fst (invoke c w) = Normal (boolean true) →
  markOrderAsPicked orderId (exec c w) = (Normal false, exec c w) ∧
  markOrderAsExpired orderId (exec c w) = (Normal false, exec c w).
Proof.
  intros Hc Hok.
  assert (∃ s f l, s ≠ pending ∧
            (∀ o, f o = if isPending o then with_status s o else o) ∧
            List.find (test_object w (has_id orderId)) (contents w) = Some l ∧
            test_object w isPending l = true ∧
            exec c w = snd (saveOrders (update_object l f w)))
    as (s & f & l & Hs & Hf & Hfind & Hp & He).
  { destruct Hc as [-> | ->]; unfold exec, invoke, fmapM, bind in *.
    - rewrite markOrderAsPicked_eq in *.
      destruct (List.find _ _) as [l|]; [|done].
      destruct (test_object w isPending l) eqn:Hp; [|done].
      by exists picked, markAsPicked, l.
    - rewrite markOrderAsExpired_eq in *.
      destruct (List.find _ _) as [l|]; [|done].
      destruct (test_object w isPending l) eqn:Hp; [|done].
      by exists expired, markAsExpired, l. }
  destruct (transition_is_final s f orderId w l Hs Hf Hfind Hp) as [H1 H2].
  rewrite He, markOrderAsPicked_eq, markOrderAsExpired_eq, H1, H2. done.
Qed.

Lemma mark_succeeds_once_witness :
  markOrderAsPicked "A2" (exec (call_markOrderAsExpired "A2") returning_user)
  = (Normal false, exec (call_markOrderAsExpired "A2") returning_user) ∧
  markOrderAsExpired "A2" (exec (call_markOrderAsExpired "A2") returning_user)
  = (Normal false, exec (call_markOrderAsExpired "A2") returning_user).
Proof.
  apply (mark_succeeds_once returning_user "A2" (call_markOrderAsExpired "A2")).
  - right. reflexivity.
  - reflexivity.
Defined.

(** ** Revenue under mutations *)

Lemma omap_ext_Forall {A B} (f g : A → option B) (c : list A) :
  Forall (fun x => f x = g x) c → omap f c = omap g c.
Proof.
  intros H. apply list_omap_ext. induction H; by constructor.
Qed.

Lemma fold_price_app (l : list Order) (o : Order) (a : float) :
  fold_left (fun total order => (total + price order)%float) (l ++ [o]) a
  = (fold_left (fun total order => (total + price order)%float) l a + price o)%float.
Proof. by rewrite fold_left_app. Qed.

Lemma fold_price_pointwise (l l' : list Order) (a : float) :
  map price l = map price l' →
  fold_left (fun total order => (total + price order)%float) l a
  = fold_left (fun total order => (total + price order)%float) l' a.
Proof.
  revert l' a. induction l as [|o l IH]; intros [|o' l'] a H; simpl in *; try done.
  injection H as Hp Hl. rewrite Hp. by apply IH.
Qed.

Lemma prices_update_object l f w :
  (∀ o, price (f o) = price o) →
  map price (snapshot (update_object l f w)) = map price (snapshot w).
Proof.
  intros Hf. unfold snapshot. rewrite contents_update_object.
  induction (contents w) as [|l' c IH]; [done|].
  change (omap ?g (l' :: c))
    with (match g l' with Some y => y :: omap g c | None => omap g c end).
  rewrite deref_update_object. destruct (decide (l = l')) as [<-|Hne].
  - destruct (deref w l) as [o|]; simpl; [|apply IH]. rewrite Hf. f_equal. apply IH.
  - destruct (deref w l') as [o|]; simpl; [|apply IH]. f_equal. apply IH.
Qed.

Lemma price_markAsPicked o : price (markAsPicked o) = price o.
Proof. unfold markAsPicked. by destruct (isPending o). Qed.

Lemma price_markAsExpired o : price (markAsExpired o) = price o.
Proof. unfold markAsExpired. by destruct (isPending o). Qed.

Lemma getTotalRevenue_snapshot w :
  fst (getTotalRevenue w)
  = Normal (fold_left (fun total order => (total + price order)%float)
              (snapshot w) 0%float).
Proof. unfold getTotalRevenue, gets. simpl. by rewrite fold_add_price. Qed.

(** X15: [createOrder(data)] raises [getTotalRevenue()] by exactly
    [data.price] (one more floating-point addition at the end of the sum),
    and the two status transitions leave it unchanged. *)
Theorem revenue_follows_mutations (w : World) :
  wf w →
  ∃ r,
    fst (getTotalRevenue w) = Normal r ∧
    (∀ d, fst (getTotalRevenue (exec (call_createOrder d) w))
          = Normal (r + data_price d)%float) ∧
    (∀ i, fst (getTotalRevenue (exec (call_markOrderAsPicked i) w)) = Normal r ∧
          fst (getTotalRevenue (exec (call_markOrderAsExpired i) w)) = Normal r).
Proof.
  intros Hw. eexists. split; [apply getTotalRevenue_snapshot|]. split.
  - intros d. rewrite getTotalRevenue_snapshot.
    unfold exec, invoke, fmapM, bind. rewrite createOrder_eq. simpl.
    rewrite snapshot_saveOrders, snapshot_pushed by done.
    by rewrite fold_price_app.
  - intros i. rewrite !getTotalRevenue_snapshot.
    unfold exec, invoke, fmapM, bind.
    rewrite markOrderAsPicked_eq, markOrderAsExpired_eq.
    destruct (List.find _ _) as [l|]; [|done].
    destruct (test_object w isPending l); [|done]. simpl.
    rewrite !snapshot_saveOrders. split; f_equal; apply fold_price_pointwise.
    + apply prices_update_object, price_markAsPicked.
    + apply prices_update_object, price_markAsExpired.
Qed.

Lemma revenue_follows_mutations_witness :
  fst (getTotalRevenue returning_user) = Normal 15.5%float ∧
  fst (getTotalRevenue (exec (call_createOrder nasi_goreng) returning_user))
  = Normal 28%float ∧
  fst (getTotalRevenue (exec (call_markOrderAsPicked "A2") returning_user))
  = Normal 15.5%float.
Proof.
  destruct (revenue_follows_mutations returning_user) as (r & Hr & Hc & Hm).
  - split; [vm_compute; lia|]. vm_compute. repeat constructor.
  - assert (r = 15.5%float) as -> by (vm_compute in Hr; congruence).
    split; [exact Hr|]. split.
    + rewrite Hc. reflexivity.
    + apply Hm.
Defined.

(** ** References across a reload *)

Lemma loadOrders_replaces_objects w l f :
  l < length (objects w) →
  deref (snd (loadOrders w)) l = deref w l ∧
  snapshot (update_object l f (snd (loadOrders w))) = snapshot (snd (loadOrders w)).
Proof.
  intros Hl.
  assert (Hempty : ∀ x, objects x = objects w →
            deref (emptied x) l = deref w l ∧
            snapshot (update_object l f (emptied x)) = snapshot (emptied x)).
  { intros x Hx. split; [unfold deref; simpl; by rewrite Hx|].
    unfold snapshot. rewrite contents_update_object, contents_emptied. done. }
  assert (Hfilled : ∀ js,
            deref (filled js w) l = deref w l ∧
            snapshot (update_object l f (filled js w)) = snapshot (filled js w)).
  { intros js. split; [unfold deref, filled; simpl; by rewrite lookup_app_l|].
    unfold snapshot. rewrite contents_update_object, contents_filled.
    apply omap_ext_Forall, Forall_seq. intros j Hj.
    rewrite deref_update_object. rewrite decide_False by lia. done. }
  rewrite loadOrders_eq. simpl. case_bool_decide; [by apply Hempty|].
  destruct (mode (localStorage w)); try (by apply Hempty);
    destruct (items (localStorage w) !! storage_key (currentUserPhone w))
      as [[| |js|p]|]; try (by apply Hempty); apply Hfilled.
Qed.

(** X16: a load builds new [Order] objects: after [refreshOrders()] or
    [switchUser(u)] the objects handed out before are still what they were,
    but they are no longer the store's, so calling [markAsPicked()] or any
    other method on one of them no longer shows in the collection. *)
Theorem reload_detaches_old_orders (w : World) (c : Call) (l : nat)
    (f : Order → Order) :
  (c = call_refreshOrders ∨ ∃ u, c = call_switchUser u) →
  l < length (objects w) →
  deref (exec c w) l = deref w l ∧
  snapshot (update_object l f (exec c w)) = snapshot (exec c w).
Proof.
  intros Hc Hl.
  assert (∃ w0, objects w0 = objects w ∧ exec c w = snd (loadOrders w0))
    as (w0 & Ho & ->).
  { destruct Hc as [-> | [u ->]]; unfold exec, invoke, fmapM, bind.
    - exists w. unfold refreshOrders. by rewrite loadOrders_eq.
    - exists (set_currentUserPhone u w). by rewrite switchUser_eq, loadOrders_eq. }
  rewrite <- Ho in Hl.
  destruct (loadOrders_replaces_objects w0 l f Hl) as [H1 H2].
  split; [|done]. rewrite H1. unfold deref. by rewrite Ho.
Qed.

Lemma reload_detaches_old_orders_witness :
  deref (exec call_refreshOrders returning_user) 1 = deref returning_user 1 ∧
  snapshot (update_object 1 markAsPicked (exec call_refreshOrders returning_user))
  = snapshot (exec call_refreshOrders returning_user).
Proof.
  apply (reload_detaches_old_orders returning_user call_refreshOrders 1 markAsPicked).
  - left. reflexivity.
  - vm_compute. lia.
Defined.
